(** * The card dealer of Chapter 12 (recipes 2 and 3)

    A shallow embedding of [Chapter_12/ch12_r02.py] and
    [Chapter_12/ch12_r03.py]: the Flask application [dealer] with its
    process-wide [deck], the [check_json] gate that runs before every
    request, and the two dealing views [deal] and [multi_hand].

    Python values are modelled as the code has them: [int] as [Z], [str]
    as [string] (the UTF-8 encoding of the text), the query string as an
    ordered list of key/value pairs (werkzeug's [MultiDict]), exceptions
    as a result type threaded through a state monad over the process
    state.  The libraries are modelled as CPython 3.11 and werkzeug 2.2
    behave. *)

From Stdlib Require Import ZArith String Ascii.
From stdpp Require Import base numbers list strings sorting.

Local Open Scope string_scope.
Local Open Scope Z_scope.

(** ** Python builtins used by the views *)

Module Py.

(** *** Text

    A [str] is written as its UTF-8 encoding, which is what a string
    literal of this file holds.  [decode] gives the code points of the
    text; bytes that are no UTF-8 (an overlong form, a surrogate, a cut
    sequence) encode no [str] and are refused. *)

Definition bytes (s : string) : list N := N_of_ascii <$> list_ascii_of_string s.

Definition continuation (b : N) : bool := ((128 <=? b) && (b <? 192))%N.

Fixpoint decode (bs : list N) : option (list N) :=
  match bs with
  | [] => Some []
  | b0 :: bs1 =>
      if (b0 <? 128)%N then cons b0 <$> decode bs1
      else
        match bs1 with
        | [] => None
        | b1 :: bs2 =>
            if (b0 <? 224)%N
            then
              if (194 <=? b0)%N && continuation b1
              then cons ((b0 - 192) * 64 + (b1 - 128))%N <$> decode bs2
              else None
            else
              match bs2 with
              | [] => None
              | b2 :: bs3 =>
                  if (b0 <? 240)%N
                  then
                    let c := ((b0 - 224) * 4096 + (b1 - 128) * 64 + (b2 - 128))%N in
                    if continuation b1 && continuation b2 && (2048 <=? c)%N
                       && negb ((55296 <=? c) && (c <? 57344))%N
                    then cons c <$> decode bs3
                    else None
                  else
                    match bs3 with
                    | [] => None
                    | b3 :: bs4 =>
                        let c := ((b0 - 240) * 262144 + (b1 - 128) * 4096
                                  + (b2 - 128) * 64 + (b3 - 128))%N in
                        if (b0 <? 248)%N && continuation b1 && continuation b2
                           && continuation b3 && (65536 <=? c)%N && (c <? 1114112)%N
                        then cons c <$> decode bs4
                        else None
                    end
              end
        end
  end.

(** *** [int]

    [int(s)] for a [str] in base 10, as CPython 3.11 computes it:
    [PyLong_FromUnicodeObject] turns the Unicode spaces and decimal digits
    of a text that is not ASCII into their ASCII forms, and
    [PyLong_FromString] reads the result. *)

(** [Py_ISSPACE], the white space of [PyLong_FromString]: TAB to CR and
    the blank.  The separators FS to US are not in it. *)
Definition ISSPACE (c : N) : bool :=
  ((9 <=? c) && (c <=? 13) || (c =? 32))%N.

(** [Py_UNICODE_ISSPACE] from DEL upwards (Unicode 14.0). *)
Definition UNICODE_ISSPACE (c : N) : bool :=
  ((c =? 133) || (c =? 160) || (c =? 5760) || (8192 <=? c) && (c <=? 8202)
   || (c =? 8232) || (c =? 8233) || (c =? 8239) || (c =? 8287) || (c =? 12288))%N.

(** The zero of every run of ten decimal digits (category [Nd] of
    Unicode 14.0, the table of CPython 3.11). *)
Definition decimal_zeros : list N :=
  [48; 1632; 1776; 1984; 2406; 2534; 2662; 2790; 2918; 3046; 3174; 3302;
   3430; 3558; 3664; 3792; 3872; 4160; 4240; 6112; 6160; 6470; 6608;
   6784; 6800; 6992; 7088; 7232; 7248; 42528; 43216; 43264; 43472; 43504;
   43600; 44016; 65296; 66720; 68912; 69734; 69872; 69942; 70096; 70384;
   70736; 70864; 71248; 71360; 71472; 71904; 72016; 72784; 73040; 73120;
   92768; 92864; 93008; 120782; 120792; 120802; 120812; 120822; 123200;
   123632; 125264; 130032]%N.

(** [Py_UNICODE_TODECIMAL] *)
Definition UNICODE_TODECIMAL (c : N) : option N :=
  (fun z => c - z)%N <$> List.find (fun z => (z <=? c) && (c <? z + 10))%N decimal_zeros.

(** The loop of [_PyUnicode_TransformDecimalAndSpaceToASCII]: a character
    below DEL is kept, a space becomes the blank, a decimal digit its
    ASCII digit; at any other character the result ends in a question
    mark. *)
Fixpoint transform (l : list N) : list N :=
  match l with
  | [] => []
  | c :: l' =>
      if (c <? 127)%N then c :: transform l'
      else if UNICODE_ISSPACE c then 32%N :: transform l'
      else match UNICODE_TODECIMAL c with
           | Some d => (48 + d)%N :: transform l'
           | None => [63%N]
           end
  end.

(** An ASCII text is returned as it is. *)
Definition TransformDecimalAndSpaceToASCII (l : list N) : list N :=
  if forallb (fun c => c <? 128)%N l then l else transform l.

Fixpoint lstrip (l : list N) : list N :=
  match l with
  | c :: l' => if ISSPACE c then lstrip l' else l
  | [] => []
  end.

Definition strip (l : list N) : list N :=
  reverse (lstrip (reverse (lstrip l))).

Definition digit (c : N) : option Z :=
  if ((48 <=? c) && (c <=? 57))%N then Some (Z.of_N c - 48) else None.

(** [sys.get_int_max_str_digits()], at its default. *)
Definition int_max_str_digits : N := 4300.

(** The digits of an integer literal: at least one digit, a single
    underscore allowed between two digits.  [seen] tells whether the
    previous character was a digit, [count] how many digits were read;
    the value and the number of digits are returned. *)
Fixpoint digits (acc : Z) (count : N) (seen : bool) (l : list N) : option (Z * N) :=
  match l with
  | [] => if seen then Some (acc, count) else None
  | c :: l' =>
      if (c =? 95)%N
      then (if seen then digits acc count false l' else None)
      else match digit c with
           | Some d => digits (10 * acc + d) (count + 1) true l'
           | None => None
           end
  end.

(** [PyLong_FromString] in base 10: white space, an optional sign, the
    digits, white space.  A literal of more than [int_max_str_digits]
    digits is refused. *)
Definition PyLong_FromString (l : list N) : option Z :=
  let limited (sign : Z) (r : option (Z * N)) : option Z :=
    match r with
    | Some (z, count) => if (int_max_str_digits <? count)%N then None else Some (sign * z)
    | None => None
    end in
  match strip l with
  | 43%N :: l' => limited 1 (digits 0 0 false l')
  | 45%N :: l' => limited (-1) (digits 0 0 false l')
  | l' => limited 1 (digits 0 0 false l')
  end.

(** [int(s)]; [None] stands for the [ValueError] that [int] raises. *)
Definition int (s : string) : option Z :=
  match decode (bytes s) with
  | Some l => PyLong_FromString (TransformDecimalAndSpaceToASCII l)
  | None => None
  end.

(** [sub in s] for two [str] values. *)
Fixpoint contains (sub s : string) : bool :=
  String.prefix sub s ||
  match s with
  | String _ s' => contains sub s'
  | EmptyString => false
  end.

(** [sum(xs)] *)
Definition sum (xs : list Z) : Z := fold_left Z.add xs 0.

(** [enumerate(xs)] *)
Definition enumerate {A} (xs : list A) : list (nat * A) :=
  imap (fun i x => (i, x)) xs.

(** ASCII [str.lower], used for header names. *)
Definition lower_char (c : ascii) : ascii :=
  let n := N_of_ascii c in
  if ((65 <=? n) && (n <=? 90))%N then ascii_of_N (n + 32) else c.

Fixpoint lower (s : string) : string :=
  match s with
  | String c s' => String (lower_char c) (lower s')
  | EmptyString => EmptyString
  end.

(** The text of the given bytes. *)
Definition of_bytes (l : list N) : string :=
  string_of_list_ascii (ascii_of_N <$> l).

End Py.

Example int_5 : Py.int "5" = Some 5. Proof. reflexivity. Qed.
Example int_sp : Py.int " +1_3 " = Some 13. Proof. reflexivity. Qed.
Example int_neg : Py.int "-007" = Some (-7). Proof. reflexivity. Qed.
Example int_bad1 : Py.int "1__3" = None. Proof. reflexivity. Qed.
Example int_bad2 : Py.int "" = None. Proof. reflexivity. Qed.
Example int_bad3 : Py.int "five" = None. Proof. reflexivity. Qed.
Example int_bad4 : Py.int "5.0" = None. Proof. reflexivity. Qed.

(** The separator FS is no white space for [int]; the no-break space is,
    and so are the Arabic-Indic digit five and the fullwidth digits. *)
Example int_fs : Py.int (Py.of_bytes [28; 53]%N) = None.
Proof. reflexivity. Qed.
Example int_nbsp : Py.int (Py.of_bytes [194; 160; 53]%N) = Some 5.
Proof. reflexivity. Qed.
Example int_arabic : Py.int (Py.of_bytes [217; 165]%N) = Some 5.
Proof. reflexivity. Qed.
Example int_fullwidth : Py.int (Py.of_bytes [239; 188; 145; 239; 188; 146]%N) = Some 12.
Proof. reflexivity. Qed.
Example int_overlong : Py.int (Py.of_bytes [192; 181]%N) = None.
Proof. reflexivity. Qed.
Example int_nul : Py.int (Py.of_bytes [53; 0]%N) = None.
Proof. reflexivity. Qed.

(** 4300 digits are read, 4301 are refused, whatever their value. *)
Example int_max_digits :
  Py.int (Py.of_bytes (replicate 4300 48%N)) = Some 0 /\
  Py.int (Py.of_bytes (replicate 4301 48%N)) = None /\
  Py.int (Py.of_bytes (replicate 4300 48%N ++ [53%N])) = None.
Proof. by vm_compute. Qed.
Example contains_1 : Py.contains "json" "application/json" = true. Proof. reflexivity. Qed.
Example contains_2 : Py.contains "json" "*/*" = false. Proof. reflexivity. Qed.

(** ** werkzeug's request containers *)

Module Werkzeug.

(** [MultiDict]: the decoded query string, one pair per [key=value] in the
    order of the URL; a key may repeat. *)
Definition MultiDict := list (string * string).

(** [MultiDict.getlist(key)]: every value given for [key], in order. *)
Definition getlist (key : string) (d : MultiDict) : list string :=
  snd <$> filter (fun kv => kv.1 = key) d.

(** [MultiDict.get(key)]: the first value given for [key], [None] when the
    key is absent (the caller supplies the default). *)
Definition get (key : string) (d : MultiDict) : option string :=
  head (getlist key d).

(** [MultiDict.getlist(key, type=f)]: each value is converted with [f];
    werkzeug catches the [ValueError] of a failed conversion and leaves
    that value out of the result. *)
Definition getlist_type {A} (key : string) (type : string -> option A)
    (d : MultiDict) : list A :=
  omap type (getlist key d).

(** [Headers]: name/value pairs; names compare without regard to case. *)
Definition Headers := list (string * string).

Definition header (name : string) (h : Headers) : option string :=
  snd <$> List.find (fun kv => String.eqb (Py.lower kv.1) (Py.lower name)) h.

(** A GET request as the WSGI server hands it over: the path of the URL,
    the headers and the decoded query string. *)
Record Request := {
  PATH_INFO : string;
  headers : Headers;
  args : MultiDict
}.

(** [s.lstrip("/")] *)
Fixpoint lstrip_slash (s : string) : string :=
  match s with
  | String c s' => if Ascii.eqb c "/" then lstrip_slash s' else s
  | EmptyString => EmptyString
  end.

(** [Request.path]: ["/" + path.lstrip("/")] *)
Definition path (request : Request) : string :=
  "/" +:+ lstrip_slash (PATH_INFO request).

(** *** Routing

    The rules of a [Map] as the applications have them: a rule without
    variables that does not end in a slash, and a rule that ends in a
    [<path:...>] variable (Flask's static route).  All are bound to GET
    with [strict_slashes] and [merge_slashes] at their defaults. *)
Inductive Rule (V : Type) :=
  | Leaf (rule : string) (endpoint : V)
  | PathRule (prefix : string) (endpoint : string -> V).
Arguments Leaf {V} rule endpoint.
Arguments PathRule {V} prefix endpoint.

Fixpoint strip_prefix (prefix s : string) : option string :=
  match prefix with
  | EmptyString => Some s
  | String a prefix' =>
      match s with
      | String b s' => if Ascii.eqb a b then strip_prefix prefix' s' else None
      | EmptyString => None
      end
  end.

(** What a [path] converter takes, the pattern [[^/].*?] up to the end of
    the path: a first character that is no slash, then no line feed. *)
Definition path_converter (s : string) : bool :=
  match s with
  | String c s' =>
      negb (Ascii.eqb c "/")
      && forallb (fun c' => negb (Ascii.eqb c' "010")) (list_ascii_of_string s')
  | EmptyString => false
  end.

(** A leaf rule matches its own text only: with a slash added the path is
    not found. *)
Definition rule_match {V} (r : Rule V) (p : string) : option V :=
  match r with
  | Leaf rule v => if String.eqb p rule then Some v else None
  | PathRule prefix v =>
      match strip_prefix prefix p with
      | Some tail => if path_converter tail then Some (v tail) else None
      | None => None
      end
  end.

Fixpoint first_match {V} (rules : list (Rule V)) (p : string) : option V :=
  match rules with
  | [] => None
  | r :: rules' =>
      match rule_match r p with
      | Some v => Some v
      | None => first_match rules' p
      end
  end.

(** [re.sub("/{2,}?", "/", path)]: from the left, each pair of slashes
    becomes one. *)
Fixpoint merge_slashes (s : string) : string :=
  match s with
  | String a s' =>
      match s' with
      | String b s'' =>
          if Ascii.eqb a "/" && Ascii.eqb b "/"
          then String "/" (merge_slashes s'')
          else String a (merge_slashes s')
      | EmptyString => s
      end
  | EmptyString => EmptyString
  end.

Inductive MatchResult (V : Type) :=
  | Matched (endpoint : V)
  | RequestRedirect (new_path : string)
  | NotFound.
Arguments Matched {V} endpoint.
Arguments RequestRedirect {V} new_path.
Arguments NotFound {V}.

(** The matcher: a path that matches no rule is tried again with its
    slashes merged, and a match then asks for a redirect to the merged
    path. *)
Definition Map_match {V} (rules : list (Rule V)) (path_part : string) : MatchResult V :=
  match first_match rules path_part with
  | Some v => Matched v
  | None =>
      let merged := merge_slashes path_part in
      match first_match rules merged with
      | Some _ => RequestRedirect merged
      | None => NotFound
      end
  end.

(** The path [MapAdapter.match] hands to the matcher:
    [f"/{path_info.lstrip('/')}" if path_info else ""]. *)
Definition path_part (path_info : string) : string :=
  if String.eqb path_info "" then "" else "/" +:+ lstrip_slash path_info.

End Werkzeug.

(** ** Cards, the deck and the random module *)

Module Ch12_r01.

Inductive Suit := Spades | Hearts | Diamonds | Clubs.

Record Card := { rank : Z; suit : Suit }.

#[export] Instance Suit_eq_dec : EqDecision Suit.
Proof. solve_decision. Defined.

#[export] Instance Card_eq_dec : EqDecision Card.
Proof. solve_decision. Defined.

Definition SUITS : list Suit := [Spades; Hearts; Diamonds; Clubs].

(** Modelled from the spec: the full card set of [Chapter_12/ch12_r01.py],
    the module both recipes import [Card] and [Deck] from and whose text
    is not at hand: "one per rank x suit combination", ranks 1 to 13. *)
Definition standard_cards : list Card :=
  r ← seqZ 1 13; s ← SUITS; [ {| rank := r; suit := s |} ].

(** What the generator of the [random] module was last seeded with: the
    text handed to [random.seed], or the operating system's entropy when
    [random.seed(None)] is called. *)
Inductive SeedValue := SeedText (a : string) | SeedEntropy (e : N).

(** Modelled from the spec: the shuffle behind [Deck()], "a seeded
    deterministic permutation of the full 52-card set" whose algorithm is
    left open.  It is a function of the seed, and a permutation. *)
Class Random := {
  shuffle : SeedValue -> list Card -> list Card;
  shuffle_perm : forall g l, shuffle g l ≡ₚ l
}.

(** Modelled from the spec: the [Deck] class of [Chapter_12/ch12_r01.py].
    [cards] is the remaining sequence, front first; [dealt] is a ghost
    field that keeps every card handed out so far, oldest first. *)
Record Deck := { cards : list Card; dealt : list Card }.

(** Modelled from the spec: [Deck()], the shuffled full set, nothing dealt. *)
Definition Deck_new `{Random} (g : SeedValue) : Deck :=
  {| cards := shuffle g standard_cards; dealt := [] |}.

(** Modelled from the spec: [Deck.deal(n)] "removes and returns the first n
    cards from the deck's current remaining sequence. Fails with
    DeckExhausted when n exceeds the remaining count."  [None] stands for
    the failure, which leaves the deck as it was. *)
Definition Deck_deal (n : nat) (d : Deck) : option (list Card) * Deck :=
  if decide (n <= length (cards d))%nat
  then (Some (take n (cards d)),
        {| cards := drop n (cards d); dealt := dealt d ++ take n (cards d) |})
  else (None, d).

End Ch12_r01.

Example standard_52 : length Ch12_r01.standard_cards = 52%nat.
Proof. reflexivity. Qed.

(** ** The process: module globals, exceptions, the Flask dispatch *)

Module Flask.
Import Werkzeug Ch12_r01.

Inductive Exn :=
  | ValueError
  | AssertionError
  | AttributeError
  | DeckExhausted
  | HTTPException (status : Z).

Definition BAD_REQUEST : Z := 400.
Definition NOT_FOUND : Z := 404.
Definition PERMANENT_REDIRECT : Z := 308.
Definition INTERNAL_SERVER_ERROR : Z := 500.
Definition OK : Z := 200.

(** What the views hand to [jsonify] or [make_response]. *)
Inductive Body :=
  | NoBody
  | JsonCards (cs : list Card)
  | JsonHands (hs : list (nat * list Card))
  | YamlSpecification
  | JsonSpecification.

Record Response := { status : Z; body : Body }.

(** Ghost record of the effects a process has performed, oldest first. *)
Inductive Event :=
  | EnvironGet (key : string)
  | RandomSeed (g : SeedValue)
  | DeckCreated
  | DeckDeal (n : nat).

#[export] Instance SeedValue_eq_dec : EqDecision SeedValue.
Proof. solve_decision. Defined.

#[export] Instance Event_eq_dec : EqDecision Event.
Proof. solve_decision. Defined.

(** The state of one server process.  [DEAL_APP_SEED] and [entropy] are
    inputs fixed when the process starts; [rng] is the state of the
    [random] module; [deck] is the module global of the application, the
    one [Deck] object every view shares once it exists. *)
Record Process := {
  DEAL_APP_SEED : option string;
  entropy : N;
  rng : SeedValue;
  deck : option Deck;
  trace : list Event
}.

Definition start (seed : option string) (e : N) : Process :=
  {| DEAL_APP_SEED := seed; entropy := e; rng := SeedEntropy e;
     deck := None; trace := [] |}.

Inductive Result (A : Type) :=
  | Ret (a : A)
  | Raise (e : Exn).
Arguments Ret {A} a.
Arguments Raise {A} e.

(** Computations of a view: they read and write the process state and
    either return or raise; what was written before a [raise] stays. *)
Definition M (A : Type) : Type := Process -> Result A * Process.

Definition ret {A} (a : A) : M A := fun st => (Ret a, st).

Definition raise {A} (e : Exn) : M A := fun st => (Raise e, st).

Definition bind {A B} (m : M A) (k : A -> M B) : M B :=
  fun st =>
    match m st with
    | (Ret a, st') => k a st'
    | (Raise e, st') => (Raise e, st')
    end.

Definition emit (ev : Event) : M unit :=
  fun st =>
    (Ret tt, {| DEAL_APP_SEED := DEAL_APP_SEED st; entropy := entropy st;
                rng := rng st; deck := deck st; trace := trace st ++ [ev] |}).

(** [try: body except <classes>: handler] *)
Definition try_except {A} (body : M A) (classes : Exn -> bool)
    (handler : Exn -> M A) : M A :=
  fun st =>
    match body st with
    | (Raise e, st') => if classes e then handler e st' else (Raise e, st')
    | r => r
    end.

(** [abort(status)] raises the HTTP exception of that status. *)
Definition abort {A} (status : Z) : M A := raise (HTTPException status).

(** [assert b] (the interpreter runs without [-O], so the check is made) *)
Definition assert (b : bool) : M unit :=
  if b then ret tt else raise AssertionError.

(** A conversion that raises [ValueError]. *)
Definition or_ValueError {A} (o : option A) : M A :=
  match o with Some a => ret a | None => raise ValueError end.

End Flask.

Declare Scope proc_scope.
Delimit Scope proc_scope with proc.
Notation "x <- c ;; k" := (Flask.bind c (fun x => k))
  (at level 100, c at next level, right associativity) : proc_scope.
Notation "c ;;; k" := (Flask.bind c (fun _ => k))
  (at level 100, right associativity) : proc_scope.

(** ** Operations on the process state *)

Module Runtime.
Import Werkzeug Ch12_r01 Flask.
Local Open Scope proc_scope.

Definition set_rng (g : SeedValue) (st : Process) : Process :=
  {| DEAL_APP_SEED := DEAL_APP_SEED st; entropy := entropy st;
     rng := g; deck := deck st; trace := trace st |}.

Definition set_deck (d : option Deck) (st : Process) : Process :=
  {| DEAL_APP_SEED := DEAL_APP_SEED st; entropy := entropy st;
     rng := rng st; deck := d; trace := trace st |}.

(** [os.environ.get("DEAL_APP_SEED")] *)
Definition environ_get_DEAL_APP_SEED : M (option string) :=
  emit (EnvironGet "DEAL_APP_SEED");;;
  fun st => (Ret (DEAL_APP_SEED st), st).

(** [random.seed(a)]: with [None] the generator is seeded from the
    operating system. *)
Definition random_seed (a : option string) : M unit :=
  fun st =>
    let g := match a with
             | Some s => SeedText s
             | None => SeedEntropy (entropy st)
             end in
    emit (RandomSeed g) (set_rng g st).

(** [Deck()], shuffled by the [random] module in its current state. *)
Definition Deck_create `{Random} : M Deck :=
  emit DeckCreated;;;
  fun st => (Ret (Deck_new (rng st)), st).

(** The name [deck] of the application module. *)
Definition global_deck : M (option Deck) :=
  fun st => (Ret (deck st), st).

Definition global_deck_assign (d : Deck) : M unit :=
  fun st => (Ret tt, set_deck (Some d) st).

(** A reference to the one [Deck] object of the process.  [get_deck] is
    the only place that creates a [Deck], and only while the global holds
    none, so every reference a view obtains denotes the object the global
    names; a method called through it updates that shared object. *)
Inductive DeckRef := TheDeck.

(** [deck.deal(n)] through a reference: the shared object is updated in
    place, and a failure surfaces as [DeckExhausted]. *)
Definition deck_deal (r : DeckRef) (n : nat) : M (list Card) :=
  emit (DeckDeal n);;;
  fun st =>
    match deck st with
    | Some d =>
        match Deck_deal n d with
        | (Some hand, d') => (Ret hand, set_deck (Some d') st)
        | (None, d') => (Raise DeckExhausted, set_deck (Some d') st)
        end
    | None => (Raise AttributeError, st)
    end.

(** [[f(x) for x in xs]] for an effectful [f]: left to right, stopping at
    the first exception. *)
Fixpoint for_each {A B} (f : A -> M B) (xs : list A) : M (list B) :=
  match xs with
  | [] => ret []
  | x :: xs' => y <- f x;; ys <- for_each f xs';; ret (y :: ys)
  end.

(** [jsonify(body)] *)
Definition jsonify (b : Body) : Response := {| status := OK; body := b |}.

(** [Flask.send_static_file], the view of the route
    [/static/<path:filename>] that every Flask application has.  The
    applications are started in the directory of the book's code, which
    has no [static] folder: no file is found. *)
Definition send_static_file (filename : string) : M Response :=
  abort NOT_FOUND.

(** What [Flask.dispatch_request] does with the outcome of the routing:
    the view is called, or the routing exception is raised. *)
Definition dispatch (m : MatchResult (Request -> M Response)) (request : Request)
    : M Response :=
  match m with
  | Matched view => view request
  | RequestRedirect _ => raise (HTTPException PERMANENT_REDIRECT)
  | NotFound => abort NOT_FOUND
  end.

End Runtime.

(** ** Chapter 12, recipe 3: [ch12_r03.py] *)

Module Ch12_r03.
Import Werkzeug Ch12_r01 Flask Runtime.
Local Open Scope proc_scope.

Section Dealer.
Context `{Random}.

Definition get_deck : M DeckRef :=
  deck <- global_deck;;
  match deck with
  | None =>
      a <- environ_get_DEAL_APP_SEED;;
      random_seed a;;;
      d <- Deck_create;;
      global_deck_assign d;;;
      ret TheDeck
  | Some _ => ret TheDeck
  end.

Definition check_json (request : Request) : M (option Response) :=
  if bool_decide (path request ∈ ["/dealer/openapi.yaml"; "/dealer/openapi.json"])
  then ret None
  else if Py.contains "json" (default "*/*" (header "Accept" (headers request)))
  then ret None
  else if String.eqb "json" (default "html" (get "$format" (args request)))
  then ret None
  else abort BAD_REQUEST.

Definition swagger2 (request : Request) : M Response :=
  ret {| status := OK; body := YamlSpecification |}.

Definition swagger3 (request : Request) : M Response :=
  ret {| status := OK; body := JsonSpecification |}.

(** [int(request.args.get("cards", 5))] *)
Definition cards_arg (request : Request) : option Z :=
  match get "cards" (args request) with
  | Some s => Py.int s
  | None => Some 5
  end.

Definition deal (request : Request) : M Response :=
  hand_size <-
    try_except
      (hand_size <- or_ValueError (cards_arg request);;
       assert ((1 <=? hand_size) && (hand_size <? 53));;;
       ret hand_size)
      (fun _ => true)
      (fun ex => abort BAD_REQUEST);;
  deck <- get_deck;;
  cards <- deck_deal deck (Z.to_nat hand_size);;
  ret (jsonify (JsonCards cards)).

(** [request.args.getlist("cards", type=int)], replaced by the four hands
    of thirteen when it is empty. *)
Definition hand_sizes_arg (request : Request) : list Z :=
  let hand_sizes := getlist_type "cards" Py.int (args request) in
  if decide (length hand_sizes = 0%nat) then [13; 13; 13; 13]
  else hand_sizes.

(** The calls of [dealer.logger] write to the log only and are left out. *)
Definition multi_hand (request : Request) : M Response :=
  hand_sizes <-
    try_except
      (let hand_sizes := hand_sizes_arg request in
       assert (forallb (fun hand_size => (1 <=? hand_size) && (hand_size <? 53))
                       hand_sizes);;;
       assert (Py.sum hand_sizes <? 53);;;
       ret hand_sizes)
      (fun e => match e with AssertionError | ValueError => true | _ => false end)
      (fun ex => abort BAD_REQUEST);;
  deck <- get_deck;;
  hands <- for_each (fun hand_size => deck_deal deck (Z.to_nat hand_size)) hand_sizes;;
  ret (jsonify (JsonHands (Py.enumerate hands))).

(** The rules of [dealer.url_map]: the static route of Flask, then the
    routes in the order of their decorators. *)
Definition url_map : list (Rule (Request -> M Response)) :=
  [ PathRule "/static/" (fun filename request => send_static_file filename);
    Leaf "/dealer/openapi.yaml" swagger2;
    Leaf "/dealer/openapi.json" swagger3;
    Leaf "/dealer/hand" deal;
    Leaf "/dealer/hands" multi_hand ].

(** Flask runs the [before_request] function first; a response it returns
    is the answer and neither the view is called nor the outcome of the
    routing looked at. *)
Definition full_dispatch_request (request : Request) : M Response :=
  rv <- check_json request;;
  match rv with
  | Some response => ret response
  | None => dispatch (Map_match url_map (path_part (PATH_INFO request))) request
  end.

(** One GET request served by the process: an HTTP exception becomes the
    response of its status, any other exception the server error. *)
Definition wsgi_app (request : Request) (st : Process) : Response * Process :=
  match full_dispatch_request request st with
  | (Ret response, st') => (response, st')
  | (Raise (HTTPException s), st') => ({| status := s; body := NoBody |}, st')
  | (Raise _, st') => ({| status := INTERNAL_SERVER_ERROR; body := NoBody |}, st')
  end.

(** Requests served one after the other (the application runs with
    [threaded=False]). *)
Fixpoint serve (requests : list Request) (st : Process) : list Response * Process :=
  match requests with
  | [] => ([], st)
  | r :: rs =>
      let '(resp, st') := wsgi_app r st in
      let '(resps, st'') := serve rs st' in
      (resp :: resps, st'')
  end.

End Dealer.
End Ch12_r03.

(** ** Chapter 12, recipe 2: [ch12_r02.py]

    The earlier recipe: the same [get_deck] and [deal], a gate with no
    exempt path, and the single route [/dealer/hand]. *)

Module Ch12_r02.
Import Werkzeug Ch12_r01 Flask Runtime.
Local Open Scope proc_scope.

Section Dealer.
Context `{Random}.

Definition get_deck : M DeckRef :=
  deck <- global_deck;;
  match deck with
  | None =>
      a <- environ_get_DEAL_APP_SEED;;
      random_seed a;;;
      d <- Deck_create;;
      global_deck_assign d;;;
      ret TheDeck
  | Some _ => ret TheDeck
  end.

Definition check_json (request : Request) : M (option Response) :=
  if Py.contains "json" (default "*/*" (header "Accept" (headers request)))
  then ret None
  else if String.eqb "json" (default "html" (get "$format" (args request)))
  then ret None
  else abort BAD_REQUEST.

Definition deal (request : Request) : M Response :=
  hand_size <-
    try_except
      (hand_size <- or_ValueError
         (match get "cards" (args request) with
          | Some s => Py.int s
          | None => Some 5
          end);;
       assert ((1 <=? hand_size) && (hand_size <? 53));;;
       ret hand_size)
      (fun _ => true)
      (fun ex => abort BAD_REQUEST);;
  deck <- get_deck;;
  cards <- deck_deal deck (Z.to_nat hand_size);;
  ret (jsonify (JsonCards cards)).

Definition url_map : list (Rule (Request -> M Response)) :=
  [ PathRule "/static/" (fun filename request => send_static_file filename);
    Leaf "/dealer/hand" deal ].

Definition full_dispatch_request (request : Request) : M Response :=
  rv <- check_json request;;
  match rv with
  | Some response => ret response
  | None => dispatch (Map_match url_map (path_part (PATH_INFO request))) request
  end.

Definition wsgi_app (request : Request) (st : Process) : Response * Process :=
  match full_dispatch_request request st with
  | (Ret response, st') => (response, st')
  | (Raise (HTTPException s), st') => ({| status := s; body := NoBody |}, st')
  | (Raise _, st') => ({| status := INTERNAL_SERVER_ERROR; body := NoBody |}, st')
  end.

End Dealer.
End Ch12_r02.

(** ** A sample random module

    One concrete shuffle, used to run the model on inputs: the seed picks
    a rotation of the list. *)

Module Sample.
Import Ch12_r01.

Definition seed_number (g : SeedValue) : nat :=
  match g with
  | SeedText a => String.length a
  | SeedEntropy e => N.to_nat e
  end.

Definition rotate_shuffle (g : SeedValue) (l : list Card) : list Card :=
  rotate (seed_number g) l.

Lemma rotate_shuffle_perm g l : rotate_shuffle g l ≡ₚ l.
Proof.
  unfold rotate_shuffle, rotate.
  rewrite Permutation_app_comm. by rewrite take_drop.
Qed.

#[export] Instance rotate_Random : Random :=
  {| shuffle := rotate_shuffle; shuffle_perm := rotate_shuffle_perm |}.

End Sample.

(** ** Chapter 7, recipe 4: [ch07_r04.py]

    Two tallies of events by name: the module global [_global_counter]
    behind [count] and [counts], and the class attribute
    [EventCounter._counts] behind the methods of every [EventCounter]. *)

Module Ch07_r04.

(** [collections.Counter] with [str] keys: a [dict], so its items are in
    order of first insertion, one item per key. *)
Definition Counter := list (string * Z).

(** [c[key]]: a key that is missing counts 0, and stays missing. *)
Fixpoint getitem (c : Counter) (key : string) : Z :=
  match c with
  | [] => 0
  | (k, v) :: c' => if decide (k = key) then v else getitem c' key
  end.

(** [c[key] = v]: the item of a known key is replaced where it stands, a
    new key goes to the end. *)
Fixpoint setitem (c : Counter) (key : string) (v : Z) : Counter :=
  match c with
  | [] => [(key, v)]
  | (k, v0) :: c' =>
      if decide (k = key) then (k, v) :: c' else (k, v0) :: setitem c' key v
  end.

(** One step of a stable sort by falling count: [x], which stood before
    every item of [l], goes in front of the first item that does not
    count more than it. *)
Fixpoint insert_by_count (x : string * Z) (l : list (string * Z)) : list (string * Z) :=
  match l with
  | [] => [x]
  | y :: l' => if x.2 <? y.2 then y :: insert_by_count x l' else x :: l
  end.

(** [Counter.most_common()], that is
    [sorted(self.items(), key=itemgetter(1), reverse=True)]: Python's sort
    is stable, also when reversed, so items of equal count keep the order
    of the dict. *)
Definition most_common (c : Counter) : list (string * Z) :=
  foldr insert_by_count [] c.

(** The two objects the module creates when it is imported. *)
Record Globals := {
  _global_counter : Counter;
  EventCounter__counts : Counter
}.

Definition imported : Globals :=
  {| _global_counter := []; EventCounter__counts := [] |}.

(** [count(key, increment)]; a call that gives no increment passes 1. *)
Definition count (key : string) (increment : Z) (g : Globals) : Globals :=
  {| _global_counter :=
       setitem (_global_counter g) key (getitem (_global_counter g) key + increment);
     EventCounter__counts := EventCounter__counts g |}.

Definition counts (g : Globals) : list (string * Z) :=
  most_common (_global_counter g).

(** An [EventCounter] object: it has no attribute of its own, only its
    identity. *)
Record EventCounter := { object_id : nat }.

(** [EventCounter.count(self, key, increment)] *)
Definition EventCounter_count (self : EventCounter) (key : string) (increment : Z)
    (g : Globals) : Globals :=
  {| _global_counter := _global_counter g;
     EventCounter__counts :=
       setitem (EventCounter__counts g) key
               (getitem (EventCounter__counts g) key + increment) |}.

(** [EventCounter.counts(self)] *)
Definition EventCounter_counts (self : EventCounter) (g : Globals) : list (string * Z) :=
  most_common (EventCounter__counts g).

End Ch07_r04.

Example class_variable_doctest :
  let c1 := {| Ch07_r04.object_id := 1 |} in
  let c2 := {| Ch07_r04.object_id := 2 |} in
  let c3 := {| Ch07_r04.object_id := 3 |} in
  Ch07_r04.EventCounter_counts c3
    (Ch07_r04.EventCounter_count c2 "input" 1
       (Ch07_r04.EventCounter_count c1 "input" 1 Ch07_r04.imported))
  = [("input", 2)].
Proof. reflexivity. Qed.

Example most_common_ties :
  Ch07_r04.most_common [("a", 1); ("b", 3); ("c", 1); ("d", 3)]
  = [("b", 3); ("d", 3); ("a", 1); ("c", 1)].
Proof. reflexivity. Qed.

(** ** Chapter 12, recipe 7, the client: [ch12_r07_client.py]

    [make_path_map] reads the document that [json.loads] made of the
    OpenAPI specification.  The document is modelled with the operations
    Python applies to it; a number is an integer here (a float never
    occurs as a key or an index of a document the function accepts). *)

Module Ch12_r07_client.

#[local] Unset Elimination Schemes.
Inductive Json :=
  | JNull
  | JBool (b : bool)
  | JInt (n : Z)
  | JStr (s : string)
  | JList (l : list Json)
  | JDict (d : list (string * Json)).
#[local] Set Elimination Schemes.

Inductive Exn := KeyError | IndexError | TypeError.

Inductive Result (A : Type) :=
  | Ok (a : A)
  | Err (e : Exn).
Arguments Ok {A} a.
Arguments Err {A} e.

Definition bind {A B} (r : Result A) (k : A -> Result B) : Result B :=
  match r with Ok a => k a | Err e => Err e end.

(** A loop that carries a value along and stops at the first exception. *)
Fixpoint fold_result {A B} (f : B -> A -> Result B) (acc : B) (xs : list A) : Result B :=
  match xs with
  | [] => Ok acc
  | x :: xs' => bind (f acc x) (fun acc' => fold_result f acc' xs')
  end.

(** The value a [dict] read from JSON holds for a key. *)
Definition dict_get (d : list (string * Json)) (key : string) : option Json :=
  snd <$> List.find (fun kv => String.eqb kv.1 key) d.

(** The one-character strings of a [str]. *)
Definition chars (s : string) : list string :=
  (fun c => String c EmptyString) <$> list_ascii_of_string s.

(** An index into a sequence of length [length l], counted from the end
    when it is negative. *)
Definition index {A} (l : list A) (i : Z) : option A :=
  let n := Z.of_nat (length l) in
  if (0 <=? i) && (i <? n) then l !! Z.to_nat i
  else if (- n <=? i) && (i <? 0) then l !! Z.to_nat (n + i)
  else None.

(** The values Python takes as an index: [int], and [bool] as 0 and 1. *)
Definition as_index (k : Json) : option Z :=
  match k with
  | JInt i => Some i
  | JBool b => Some (if b then 1 else 0)
  | _ => None
  end.

Definition hashable (k : Json) : bool :=
  match k with JList _ | JDict _ => false | _ => true end.

(** [c[k]] *)
Definition getitem (c k : Json) : Result Json :=
  match c with
  | JDict d =>
      match k with
      | JStr s => match dict_get d s with Some v => Ok v | None => Err KeyError end
      | JList _ | JDict _ => Err TypeError
      | _ => Err KeyError
      end
  | JList l =>
      match as_index k with
      | Some i => match index l i with Some v => Ok v | None => Err IndexError end
      | None => Err TypeError
      end
  | JStr s =>
      match as_index k with
      | Some i => match index (chars s) i with Some c => Ok (JStr c) | None => Err IndexError end
      | None => Err TypeError
      end
  | _ => Err TypeError
  end.

(** [for x in c]: the keys of a dict, the items of a list, the characters
    of a string. *)
Definition iter (c : Json) : Result (list Json) :=
  match c with
  | JDict d => Ok (JStr <$> d.*1)
  | JList l => Ok l
  | JStr s => Ok (JStr <$> chars s)
  | _ => Err TypeError
  end.

(** [s in c] for a [str] [s]: a key of a dict, an item of a list, a
    substring of a string. *)
Definition contains_str (s : string) (c : Json) : Result bool :=
  match c with
  | JDict d => Ok (bool_decide (s ∈ d.*1))
  | JList l =>
      Ok (existsb (fun x => match x with JStr t => String.eqb t s | _ => false end) l)
  | JStr t => Ok (Py.contains s t)
  | _ => Err TypeError
  end.

(** [a == b] for two hashable values: [True] and [False] are 1 and 0. *)
Definition key_eq (a b : Json) : bool :=
  match a, b with
  | JNull, JNull => true
  | JStr s, JStr t => String.eqb s t
  | (JInt _ | JBool _), (JInt _ | JBool _) =>
      match as_index a, as_index b with
      | Some i, Some j => i =? j
      | _, _ => false
      end
  | _, _ => false
  end.

(** The dict the comprehension builds: key, then the pair of path and
    operation, in order of first insertion. *)
Definition Path_Map := list (Json * (Json * Json)).

(** [m[k] = v]: a key that is already there keeps its place (and its own
    key object) and gets the new value. *)
Fixpoint dict_set (m : Path_Map) (k : Json) (v : Json * Json) : Path_Map :=
  match m with
  | [] => [(k, v)]
  | (k0, v0) :: m' =>
      if key_eq k0 k then (k0, v) :: m' else (k0, v0) :: dict_set m' k v
  end.

(** [m[k]], [None] standing for [KeyError]. *)
Definition path_map_get (m : Path_Map) (k : Json) : option (Json * Json) :=
  snd <$> List.find (fun kv => key_eq kv.1 k) m.

Definition make_path_map (openapi_spec : list (string * Json)) : Result Path_Map :=
  bind (getitem (JDict openapi_spec) (JStr "paths")) (fun paths =>
  bind (iter paths) (fun paths_iter =>
  fold_result
    (fun operation_ids path =>
       bind (getitem paths path) (fun item =>
       bind (iter item) (fun item_iter =>
       fold_result
         (fun operation_ids operation =>
            bind (getitem item operation) (fun member =>
            bind (contains_str "operationId" member) (fun has_id =>
            if has_id
            then bind (getitem member (JStr "operationId")) (fun key =>
                 if hashable key
                 then Ok (dict_set operation_ids key (path, operation))
                 else Err TypeError)
            else Ok operation_ids)))
         operation_ids item_iter)))
    [] paths_iter)).

End Ch12_r07_client.

Example make_path_map_run :
  let op (id : string) := Ch12_r07_client.JDict [("operationId", Ch12_r07_client.JStr id)] in
  Ch12_r07_client.make_path_map
    [("openapi", Ch12_r07_client.JStr "3.0.1");
     ("paths", Ch12_r07_client.JDict
        [("/players", Ch12_r07_client.JDict
            [("get", op "get_all_players"); ("post", op "make_player")]);
         ("/players/{id}", Ch12_r07_client.JDict
            [("get", op "get_one_player");
             ("parameters", Ch12_r07_client.JList [])])])]
  = Ch12_r07_client.Ok
      [(Ch12_r07_client.JStr "get_all_players",
        (Ch12_r07_client.JStr "/players", Ch12_r07_client.JStr "get"));
       (Ch12_r07_client.JStr "make_player",
        (Ch12_r07_client.JStr "/players", Ch12_r07_client.JStr "post"));
       (Ch12_r07_client.JStr "get_one_player",
        (Ch12_r07_client.JStr "/players/{id}", Ch12_r07_client.JStr "get"))].
Proof. reflexivity. Qed.

Example make_path_map_summary :
  Ch12_r07_client.make_path_map
    [("paths", Ch12_r07_client.JDict
        [("/players", Ch12_r07_client.JDict
            [("summary", Ch12_r07_client.JStr "see operationId below")])])]
  = Ch12_r07_client.Err Ch12_r07_client.TypeError.
Proof. reflexivity. Qed.

(** * Properties *)

Import Werkzeug Ch12_r01 Flask Runtime.
Local Open Scope list_scope.

(** ** Substring containment *)

Lemma prefix_app (p s : string) :
  String.prefix p s = true <-> exists b, s = p +:+ b.
Proof.
  revert s. induction p as [|c p IH]; intros s.
  - split; [intros _; by exists s | intros _; by destruct s].
  - destruct s as [|c' s]; simpl.
    + split; [done | intros [b Hb]; discriminate].
    + destruct (ascii_dec c c') as [->|Hne].
      * rewrite IH. split; intros [b Hb]; exists b; [by rewrite Hb | by injection Hb].
      * split; [done | intros [b Hb]; by injection Hb].
Qed.

Lemma contains_spec (sub s : string) :
  Py.contains sub s = true <-> exists a b, s = a +:+ sub +:+ b.
Proof.
  split.
  - induction s as [|c s IH]; cbn [Py.contains]; rewrite orb_true_iff, prefix_app.
    + intros [[b Hb]|?]; [|done]. by exists "", b.
    + intros [[b Hb]|Hs]; [by exists "", b|].
      destruct (IH Hs) as (a & b & ->). by exists (String c a), b.
  - intros (a & b & ->). induction a as [|c a IH].
    + assert (String.prefix sub (sub +:+ b) = true) as Hp
        by (apply prefix_app; by exists b).
      change ("" +:+ sub +:+ b) with (sub +:+ b).
      destruct (sub +:+ b); cbn [Py.contains]; by rewrite Hp.
    + change (String c a +:+ sub +:+ b) with (String c (a +:+ sub +:+ b)).
      cbn [Py.contains]. rewrite IH. apply orb_true_r.
Qed.

(** ** Routing *)

Lemma strip_prefix_spec (prefix s t : string) :
  strip_prefix prefix s = Some t <-> s = prefix +:+ t.
Proof.
  revert s. induction prefix as [|a prefix IH]; intros s; cbn [strip_prefix].
  - split; [by intros [= ->] | by intros ->].
  - destruct s as [|b s]; [done|].
    destruct (Ascii.eqb_spec a b) as [->|Hne].
    + rewrite IH. split; [by intros -> | by intros [= ->]].
    + split; [done | intros [= ? ?]; by destruct Hne].
Qed.

(** The file name a path asks the static route for, if it asks for one. *)
Definition static_file (p : string) : option string :=
  match strip_prefix "/static/" p with
  | Some tail => if path_converter tail then Some tail else None
  | None => None
  end.

Lemma static_file_spec (p filename : string) :
  static_file p = Some filename <->
  p = "/static/" +:+ filename /\ path_converter filename = true.
Proof.
  unfold static_file.
  destruct (strip_prefix "/static/" p) as [tail|] eqn:Hp.
  - apply strip_prefix_spec in Hp as ->.
    destruct (path_converter tail) eqn:Hc.
    + split; [by intros [= <-] | intros [Heq _]; by simplify_eq/=].
    + split; [done | intros [Heq ?]; simplify_eq/=; congruence].
  - split; [done|]. intros [-> _].
    assert (strip_prefix "/static/" ("/static/" +:+ filename) = Some filename)
      by by apply strip_prefix_spec.
    congruence.
Qed.

(** A path is served by a map when a route has its text or the static
    route takes it. *)
Definition served (routes : list string) (p : string) : bool :=
  bool_decide (p ∈ routes) || bool_decide (is_Some (static_file p)).

Lemma lstrip_slash_head (s : string) :
  match lstrip_slash s with String c _ => c <> "/"%char | EmptyString => True end.
Proof.
  induction s as [|c s IH]; [done|]. cbn [lstrip_slash].
  by destruct (Ascii.eqb_spec c "/").
Qed.

(** The matcher sees the path that [request.path] gives, the empty
    [PATH_INFO] apart, for which it sees the empty path. *)
Lemma path_part_cases (request : Request) :
  path_part (PATH_INFO request) = path request \/
  (path_part (PATH_INFO request) = "" /\ path request = "/").
Proof.
  unfold path_part, path. destruct (PATH_INFO request); [by right | by left].
Qed.

(** ** What [get_deck] and [deck.deal] do to the process *)

Definition seed_of (st : Process) : SeedValue :=
  match DEAL_APP_SEED st with
  | Some s => SeedText s
  | None => SeedEntropy (entropy st)
  end.

(** The process once a deck exists: unchanged when it had one, else seeded
    from the environment with a new deck. *)
Definition with_deck `{Random} (st : Process) : Process :=
  match deck st with
  | Some _ => st
  | None =>
      {| DEAL_APP_SEED := DEAL_APP_SEED st; entropy := entropy st;
         rng := seed_of st; deck := Some (Deck_new (seed_of st));
         trace := trace st ++ [EnvironGet "DEAL_APP_SEED";
                               RandomSeed (seed_of st); DeckCreated] |}
  end.

Definition the_deck `{Random} (st : Process) : Deck :=
  default (Deck_new (seed_of st)) (deck st).

(** The process after [deck.deal(n)] took [n] cards from deck [d]. *)
Definition dealt_from (n : nat) (d : Deck) (st : Process) : Process :=
  {| DEAL_APP_SEED := DEAL_APP_SEED st; entropy := entropy st; rng := rng st;
     deck := Some {| cards := drop n (cards d);
                     dealt := dealt d ++ take n (cards d) |};
     trace := trace st ++ [DeckDeal n] |}.

(** The process after an effect was recorded and nothing else changed. *)
Definition logged (ev : Event) (st : Process) : Process :=
  {| DEAL_APP_SEED := DEAL_APP_SEED st; entropy := entropy st; rng := rng st;
     deck := deck st; trace := trace st ++ [ev] |}.

Definition valid_size (n : Z) : bool := (1 <=? n) && (n <? 53).

Lemma valid_size_spec n : valid_size n = true <-> 1 <= n < 53.
Proof. unfold valid_size. rewrite andb_true_iff, Z.leb_le, Z.ltb_lt. done. Qed.

Ltac run :=
  unfold bind, ret, raise, abort, emit, try_except, assert, or_ValueError,
    global_deck, global_deck_assign, environ_get_DEAL_APP_SEED, random_seed,
    Deck_create, set_deck, set_rng; simpl.

Section DealerFacts.
Context `{Random}.

Lemma get_deck_eq st : Ch12_r03.get_deck st = (Ret TheDeck, with_deck st).
Proof.
  unfold Ch12_r03.get_deck, with_deck, seed_of. run.
  destruct st as [s e g [d|] t]; simpl; [done|].
  rewrite <- !app_assoc. by destruct s.
Qed.

Lemma get_deck_r02 : Ch12_r02.get_deck = Ch12_r03.get_deck.
Proof. reflexivity. Qed.

Lemma deal_r02 : Ch12_r02.deal = Ch12_r03.deal.
Proof. reflexivity. Qed.

Lemma with_deck_deck st : deck (with_deck st) = Some (the_deck st).
Proof. unfold with_deck, the_deck. by destruct (deck st) eqn:E; simpl; rewrite ?E. Qed.

Lemma with_deck_idem st : with_deck (with_deck st) = with_deck st.
Proof. unfold with_deck at 1. by rewrite with_deck_deck. Qed.

Lemma deck_deal_eq r n st d :
  deck st = Some d ->
  deck_deal r n st =
    if decide (n <= length (cards d))%nat
    then (Ret (take n (cards d)), dealt_from n d st)
    else (Raise DeckExhausted, logged (DeckDeal n) st).
Proof.
  intros Hd. unfold deck_deal, Deck_deal, dealt_from, logged. run. rewrite Hd.
  case_decide; [done|]. destruct st; simpl in *; by subst.
Qed.

Lemma deal_eq request st :
  Ch12_r03.deal request st =
    match Ch12_r03.cards_arg request with
    | Some n =>
        if valid_size n
        then bind (deck_deal TheDeck (Z.to_nat n))
                  (fun cs => ret (jsonify (JsonCards cs))) (with_deck st)
        else (Raise (HTTPException BAD_REQUEST), st)
    | None => (Raise (HTTPException BAD_REQUEST), st)
    end.
Proof.
  unfold Ch12_r03.deal. run.
  destruct (Ch12_r03.cards_arg request) as [n|]; simpl; [|done].
  fold (valid_size n). destruct (valid_size n); simpl; [|done].
  by rewrite get_deck_eq.
Qed.

(** The single-hand view on a size that passed the check: the deck hands
    out its first cards, or refuses when it holds too few. *)
Lemma deal_valid request st n :
  Ch12_r03.cards_arg request = Some n -> 1 <= n < 53 ->
  Ch12_r03.deal request st =
    if decide (Z.to_nat n <= length (cards (the_deck st)))%nat
    then (Ret (jsonify (JsonCards (take (Z.to_nat n) (cards (the_deck st))))),
          dealt_from (Z.to_nat n) (the_deck st) (with_deck st))
    else (Raise DeckExhausted, logged (DeckDeal (Z.to_nat n)) (with_deck st)).
Proof.
  intros Hn Hv. rewrite deal_eq, Hn.
  apply valid_size_spec in Hv. rewrite Hv. unfold bind.
  rewrite (deck_deal_eq _ _ _ _ (with_deck_deck st)). by case_decide.
Qed.

Lemma deal_invalid request st :
  (forall n, Ch12_r03.cards_arg request = Some n -> ~ 1 <= n < 53) ->
  Ch12_r03.deal request st = (Raise (HTTPException BAD_REQUEST), st).
Proof.
  intros Hbad. rewrite deal_eq.
  destruct (Ch12_r03.cards_arg request) as [n|]; [|done].
  destruct (valid_size n) eqn:Hv; [|done].
  apply valid_size_spec in Hv. by destruct (Hbad n).
Qed.

Lemma Deck_new_length g : length (cards (Deck_new g)) = 52%nat.
Proof. simpl. by rewrite shuffle_perm. Qed.

Lemma the_deck_fresh st : deck st = None -> the_deck st = Deck_new (seed_of st).
Proof. unfold the_deck. by intros ->. Qed.

Lemma check_json_cases request st :
  Ch12_r03.check_json request st = (Ret None, st) \/
  Ch12_r03.check_json request st = (Raise (HTTPException BAD_REQUEST), st).
Proof.
  unfold Ch12_r03.check_json.
  repeat (match goal with |- context [if ?b then _ else _] => destruct b end;
          [by left|]).
  by right.
Qed.

(** What the matcher of recipe 3 finds for a path. *)
Lemma first_match_r03 (p : string) :
  first_match Ch12_r03.url_map p =
    match static_file p with
    | Some filename => Some (fun request => send_static_file filename)
    | None =>
        if decide (p = "/dealer/openapi.yaml") then Some Ch12_r03.swagger2
        else if decide (p = "/dealer/openapi.json") then Some Ch12_r03.swagger3
        else if decide (p = "/dealer/hand") then Some Ch12_r03.deal
        else if decide (p = "/dealer/hands") then Some Ch12_r03.multi_hand
        else None
    end.
Proof.
  unfold Ch12_r03.url_map, static_file. cbn [first_match rule_match].
  destruct (strip_prefix "/static/" p) as [t|]; [destruct (path_converter t)|];
    try done;
    repeat (case_decide;
            [subst p; reflexivity
            |match goal with
             | Hn : p <> _ |- _ => apply String.eqb_neq in Hn; rewrite Hn
             end]); done.
Qed.

Lemma first_match_r02 (p : string) :
  first_match Ch12_r02.url_map p =
    match static_file p with
    | Some filename => Some (fun request => send_static_file filename)
    | None => if decide (p = "/dealer/hand") then Some Ch12_r03.deal else None
    end.
Proof.
  unfold Ch12_r02.url_map, static_file. cbn [first_match rule_match].
  destruct (strip_prefix "/static/" p) as [t|]; [destruct (path_converter t)|];
    try done;
    (case_decide as Hp;
     [rewrite Hp; reflexivity
     |apply String.eqb_neq in Hp; by rewrite Hp]).
Qed.

Definition routes_r03 : list string :=
  ["/dealer/openapi.yaml"; "/dealer/openapi.json"; "/dealer/hand"; "/dealer/hands"].

Definition routes_r02 : list string := ["/dealer/hand"].

Lemma first_match_served_r03 (p : string) :
  is_Some (first_match Ch12_r03.url_map p) <-> served routes_r03 p = true.
Proof.
  rewrite first_match_r03. unfold served, routes_r03.
  rewrite orb_true_iff, !bool_decide_eq_true, !elem_of_cons, elem_of_nil.
  destruct (static_file p); [split; [by right | by eexists]|].
  repeat case_decide;
    (split;
     [intros [v Hv]; first [discriminate Hv | tauto]
     |intros [Hs|[v Hv]]; first [discriminate Hv | by eexists | tauto]]).
Qed.

Lemma first_match_served_r02 (p : string) :
  is_Some (first_match Ch12_r02.url_map p) <-> served routes_r02 p = true.
Proof.
  rewrite first_match_r02. unfold served, routes_r02.
  rewrite orb_true_iff, !bool_decide_eq_true, !elem_of_cons, elem_of_nil.
  destruct (static_file p); [split; [by right | by eexists]|].
  case_decide;
    (split;
     [intros [v Hv]; first [discriminate Hv | tauto]
     |intros [Hs|[v Hv]]; first [discriminate Hv | by eexists | tauto]]).
Qed.

(** How recipe 3 answers a path once the gate is passed: the four routes
    call their views; a path of the static route is not found; any other
    path is redirected when merging its slashes gives a path that is
    served, and not found otherwise. *)
Lemma dispatch_r03 (p : string) (request : Request) (st : Process) :
  dispatch (Map_match Ch12_r03.url_map p) request st =
    if decide (p = "/dealer/openapi.yaml") then Ch12_r03.swagger2 request st
    else if decide (p = "/dealer/openapi.json") then Ch12_r03.swagger3 request st
    else if decide (p = "/dealer/hand") then Ch12_r03.deal request st
    else if decide (p = "/dealer/hands") then Ch12_r03.multi_hand request st
    else if bool_decide (is_Some (static_file p))
    then (Raise (HTTPException NOT_FOUND), st)
    else if served routes_r03 (merge_slashes p)
    then (Raise (HTTPException PERMANENT_REDIRECT), st)
    else (Raise (HTTPException NOT_FOUND), st).
Proof.
  unfold Map_match.
  pose proof (first_match_served_r03 (merge_slashes p)) as Hm.
  rewrite first_match_r03.
  destruct (static_file p) as [filename|] eqn:Hs.
  - repeat (case_decide; [subst p; by vm_compute in Hs|]).
    cbn [dispatch]. by rewrite bool_decide_eq_true_2.
  - repeat (case_decide; [done|]).
    rewrite bool_decide_eq_false_2 by (by intros [? ?]).
    destruct (first_match Ch12_r03.url_map (merge_slashes p)) eqn:Hf;
      destruct (served routes_r03 (merge_slashes p)); try done.
    + assert (false = true) by (apply Hm; by eexists). done.
    + destruct (proj2 Hm eq_refl) as [? ?]. done.
Qed.

Lemma dispatch_r02 (p : string) (request : Request) (st : Process) :
  dispatch (Map_match Ch12_r02.url_map p) request st =
    if decide (p = "/dealer/hand") then Ch12_r03.deal request st
    else if bool_decide (is_Some (static_file p))
    then (Raise (HTTPException NOT_FOUND), st)
    else if served routes_r02 (merge_slashes p)
    then (Raise (HTTPException PERMANENT_REDIRECT), st)
    else (Raise (HTTPException NOT_FOUND), st).
Proof.
  unfold Map_match.
  pose proof (first_match_served_r02 (merge_slashes p)) as Hm.
  rewrite first_match_r02.
  destruct (static_file p) as [filename|] eqn:Hs.
  - case_decide as Hp; [by rewrite Hp in Hs|].
    cbn [dispatch]. by rewrite bool_decide_eq_true_2.
  - case_decide; [done|].
    rewrite bool_decide_eq_false_2 by (by intros [? ?]).
    destruct (first_match Ch12_r02.url_map (merge_slashes p)) eqn:Hf;
      destruct (served routes_r02 (merge_slashes p)); try done.
    + assert (false = true) by (apply Hm; by eexists). done.
    + destruct (proj2 Hm eq_refl) as [? ?]. done.
Qed.

(** The routing sees [request.path]. *)
Lemma route_r03 (request : Request) :
  Map_match Ch12_r03.url_map (path_part (PATH_INFO request))
  = Map_match Ch12_r03.url_map (path request).
Proof. destruct (path_part_cases request) as [->|[-> ->]]; reflexivity. Qed.

Lemma route_r02 (request : Request) :
  Map_match Ch12_r02.url_map (path_part (PATH_INFO request))
  = Map_match Ch12_r02.url_map (path request).
Proof. destruct (path_part_cases request) as [->|[-> ->]]; reflexivity. Qed.

Lemma dispatch_hand (request : Request) (st : Process) :
  path request = "/dealer/hand" ->
  dispatch (Map_match Ch12_r03.url_map (path request)) request st
  = Ch12_r03.deal request st.
Proof. by intros ->. Qed.

Lemma dispatch_hands (request : Request) (st : Process) :
  path request = "/dealer/hands" ->
  dispatch (Map_match Ch12_r03.url_map (path request)) request st
  = Ch12_r03.multi_hand request st.
Proof. by intros ->. Qed.

Lemma dispatch_openapi (request : Request) (st : Process) :
  path request = "/dealer/openapi.yaml" \/ path request = "/dealer/openapi.json" ->
  exists b, dispatch (Map_match Ch12_r03.url_map (path request)) request st
            = (Ret {| status := OK; body := b |}, st).
Proof. intros [-> | ->]; by eexists. Qed.

(** A request as a whole: the gate, then the routing. *)
Lemma full_dispatch_r03 (request : Request) (st : Process) :
  Ch12_r03.full_dispatch_request request st =
    match Ch12_r03.check_json request st with
    | (Ret None, st') =>
        dispatch (Map_match Ch12_r03.url_map (path request)) request st'
    | (Ret (Some response), st') => (Ret response, st')
    | (Raise e, st') => (Raise e, st')
    end.
Proof.
  unfold Ch12_r03.full_dispatch_request, bind. rewrite route_r03.
  by destruct (Ch12_r03.check_json request st) as [[[?|]|?] ?].
Qed.

End DealerFacts.

(** ** The single-hand request *)

Section SingleHand.
Context `{Random}.

(** C1.  On [/dealer/hand] the hand size is the [cards] parameter read
    with [int], 5 when the parameter is absent.  The view answers 400
    exactly when that value does not parse or lies outside [1, 53): so in
    both recipes, and for the whole request once the gate has let it
    through.  A size that passes is the size asked of the deck.
    [cards=0] and [cards=53] are refused; [cards=1] and [cards=52] are
    not, and against a process that has no deck yet they are answered
    with 1 and 52 cards. *)
Theorem hand_rejected_iff (request : Request) (st : Process) :
  let size := match get "cards" (args request) with
              | Some s => Py.int s
              | None => Some 5
              end in
  let invalid := size = None \/ exists n, size = Some n /\ ~ 1 <= n < 53 in
  (fst (Ch12_r03.deal request st) = Raise (HTTPException BAD_REQUEST) <-> invalid) /\
  (fst (Ch12_r02.deal request st) = Raise (HTTPException BAD_REQUEST) <-> invalid) /\
  (path request = "/dealer/hand" ->
   fst (Ch12_r03.check_json request st) = Ret None ->
   status (fst (Ch12_r03.wsgi_app request st)) = BAD_REQUEST <-> invalid) /\
  (forall n, size = Some n -> 1 <= n < 53 ->
     trace (snd (Ch12_r03.deal request st)) =
       (trace (with_deck st) ++ [DeckDeal (Z.to_nat n)])%list) /\
  (forall s, get "cards" (args request) = Some s ->
     s = "0" \/ s = "53" -> invalid) /\
  (forall s, get "cards" (args request) = Some s ->
     s = "1" \/ s = "52" ->
     ~ invalid /\
     (deck st = None ->
      exists n cs, Py.int s = Some n /\
        fst (Ch12_r03.deal request st) = Ret (jsonify (JsonCards cs)) /\
        Z.of_nat (length cs) = n)).
Proof.
  intros size invalid.
  assert (Hsize : Ch12_r03.cards_arg request = size) by done.
  assert (Hiff : fst (Ch12_r03.deal request st) = Raise (HTTPException BAD_REQUEST)
                 <-> invalid).
  { split.
    - intros Hrej. destruct size as [n|] eqn:E; [|by left].
      right. exists n. split; [done|]. intros Hv.
      rewrite (deal_valid _ _ n Hsize Hv) in Hrej. by case_decide.
    - intros Hinv. rewrite deal_invalid; [done|].
      intros n Hn Hv. rewrite Hsize in Hn.
      destruct Hinv as [Hnone|(m & Hm & Hbad)]; [congruence|].
      apply Hbad. congruence. }
  split; [done|]. split.
  { by rewrite deal_r02. }
  split.
  { intros Hpath Hgate. rewrite <- Hiff.
    unfold Ch12_r03.wsgi_app. rewrite full_dispatch_r03.
    destruct (check_json_cases request st) as [Hc|Hc]; rewrite Hc in *; [|done].
    rewrite (dispatch_hand _ _ Hpath).
    destruct size as [n|] eqn:E.
    - destruct (decide (1 <= n < 53)) as [Hv|Hv].
      + rewrite (deal_valid _ _ n Hsize Hv). case_decide; simpl; by split.
      + rewrite deal_invalid; [done|]. intros m Hm. congruence.
    - rewrite deal_invalid; [done|]. intros m Hm. congruence. }
  split.
  { intros n Hn Hv. rewrite (deal_valid _ _ n Hn Hv).
    by case_decide. }
  split.
  { intros s Hs [-> | ->]; right; subst size; rewrite Hs;
      [exists 0 | exists 53]; (split; [reflexivity | lia]). }
  intros s Hs Hcases.
  assert (exists n, Py.int s = Some n /\ 1 <= n <= 52) as (n & Hn & Hv).
  { destruct Hcases as [-> | ->]; [exists 1 | exists 52];
      (split; [reflexivity | lia]). }
  assert (size = Some n) as Hsz by (subst size; by rewrite Hs).
  split.
  { intros [Hnone|(m & Hm & Hbad)]; [congruence|].
    apply Hbad. assert (m = n) by congruence. lia. }
  intros Hfresh. exists n, (take (Z.to_nat n) (cards (the_deck st))).
  split; [done|]. rewrite (deal_valid _ _ n); [|congruence|lia].
  rewrite the_deck_fresh by done.
  pose proof (Deck_new_length (seed_of st)) as Hlen.
  case_decide; [|lia]. split; [done|].
  rewrite length_take. lia.
Qed.

End SingleHand.

(** ** The content-negotiation gate *)

Section Gate.
Context `{Random}.

Lemma format_override (o : option string) :
  String.eqb "json" (default "html" o) = true <-> o = Some "json".
Proof.
  rewrite String.eqb_eq. destruct o as [s|]; simpl; [|done].
  split; [by intros <- | by intros [= ->]].
Qed.

Lemma check_json_r03 request st :
  path request <> "/dealer/openapi.yaml" ->
  path request <> "/dealer/openapi.json" ->
  Ch12_r03.check_json request st = Ch12_r02.check_json request st.
Proof.
  intros H1 H2. unfold Ch12_r03.check_json, Ch12_r02.check_json.
  rewrite bool_decide_eq_false_2; [done|].
  rewrite !elem_of_cons, elem_of_nil. tauto.
Qed.

Lemma check_json_r02 request st :
  let accept := default "*/*" (header "Accept" (headers request)) in
  Ch12_r02.check_json request st =
    if Py.contains "json" accept || String.eqb "json" (default "html" (get "$format" (args request)))
    then (Ret None, st)
    else (Raise (HTTPException BAD_REQUEST), st).
Proof.
  unfold Ch12_r02.check_json. cbv zeta.
  destruct (Py.contains _ _); [done|]. cbn [orb]. by destruct (String.eqb _ _).
Qed.

(** C5.  A request to a dealing path gets past [check_json] exactly when
    the [Accept] header contains [json] or [$format] is [json]; any other
    request to such a path is answered 400 with the process left as it
    was, whatever its other parameters, so neither validation nor dealing
    has run.  The two [openapi] paths always get past the gate and are
    served. *)
Theorem gate_json_only (request : Request) (st : Process) :
  let accept := default "*/*" (header "Accept" (headers request)) in
  let json_ok := Py.contains "json" accept = true \/
                 get "$format" (args request) = Some "json" in
  let dealing := path request = "/dealer/hand" \/ path request = "/dealer/hands" in
  let exempt := path request = "/dealer/openapi.yaml" \/
                path request = "/dealer/openapi.json" in
  (dealing -> Ch12_r03.check_json request st = (Ret None, st) <-> json_ok) /\
  (dealing -> ~ json_ok ->
     Ch12_r03.check_json request st = (Raise (HTTPException BAD_REQUEST), st) /\
     Ch12_r03.wsgi_app request st = ({| status := BAD_REQUEST; body := NoBody |}, st)) /\
  (exempt ->
     Ch12_r03.check_json request st = (Ret None, st) /\
     status (fst (Ch12_r03.wsgi_app request st)) = OK /\
     snd (Ch12_r03.wsgi_app request st) = st).
Proof.
  intros accept json_ok dealing exempt.
  assert (Hjson : json_ok <->
            Py.contains "json" accept
            || String.eqb "json" (default "html" (get "$format" (args request))) = true).
  { rewrite orb_true_iff, format_override. done. }
  assert (Hdeal : dealing ->
            Ch12_r03.check_json request st = Ch12_r02.check_json request st).
  { intros [Hp|Hp]; apply check_json_r03; by rewrite Hp. }
  split; [|split].
  - intros Hd. rewrite (Hdeal Hd), check_json_r02, Hjson. fold accept.
    destruct (_ || _); split; done.
  - intros Hd Hno. rewrite Hjson in Hno. apply not_true_is_false in Hno.
    assert (Ch12_r03.check_json request st
            = (Raise (HTTPException BAD_REQUEST), st)) as Hc.
    { rewrite (Hdeal Hd), check_json_r02. fold accept. by rewrite Hno. }
    split; [done|].
    unfold Ch12_r03.wsgi_app. rewrite full_dispatch_r03.
    by rewrite Hc.
  - intros Hex.
    assert (Ch12_r03.check_json request st = (Ret None, st)) as Hc.
    { unfold Ch12_r03.check_json. rewrite bool_decide_eq_true_2; [done|].
      rewrite !elem_of_cons. unfold exempt in Hex. tauto. }
    split; [done|].
    unfold Ch12_r03.wsgi_app. rewrite full_dispatch_r03, Hc.
    by destruct (dispatch_openapi request st Hex) as [b ->].
Qed.

(** C10.  The [Accept] test is substring containment of [json] in the
    header value, [*/*] standing in for an absent header.  In recipe 2 for
    every request, and in recipe 3 for every request whose path is not one
    of the two exempt ones: the gate lets the request through exactly when
    the value has the form [a ++ "json" ++ b] or [$format] is [json]; with
    no [Accept] header or with [*/*], and without [$format=json], it
    answers 400; and any value with [json] somewhere inside it passes. *)
Theorem accept_test_is_substring (request : Request) (st : Process) :
  let accept := default "*/*" (header "Accept" (headers request)) in
  let has_json := exists a b, accept = a +:+ "json" +:+ b in
  let format_json := get "$format" (args request) = Some "json" in
  let tested := path request <> "/dealer/openapi.yaml" /\
                path request <> "/dealer/openapi.json" in
  (Ch12_r02.check_json request st = (Ret None, st) <-> has_json \/ format_json) /\
  (tested ->
   Ch12_r03.check_json request st = (Ret None, st) <-> has_json \/ format_json) /\
  (header "Accept" (headers request) = None \/
   header "Accept" (headers request) = Some "*/*" ->
   ~ format_json ->
   Ch12_r02.check_json request st = (Raise (HTTPException BAD_REQUEST), st) /\
   (tested ->
    Ch12_r03.check_json request st = (Raise (HTTPException BAD_REQUEST), st))) /\
  (forall a b, header "Accept" (headers request) = Some (a +:+ "json" +:+ b) ->
   Ch12_r02.check_json request st = (Ret None, st) /\
   Ch12_r03.check_json request st = (Ret None, st)).
Proof.
  intros accept has_json format_json tested.
  assert (Hr03 : tested ->
            Ch12_r03.check_json request st = Ch12_r02.check_json request st).
  { intros [H1 H2]. by apply check_json_r03. }
  assert (Hiff : Ch12_r02.check_json request st = (Ret None, st)
                 <-> has_json \/ format_json).
  { rewrite check_json_r02. fold accept. unfold has_json, format_json.
    rewrite <- contains_spec, <- format_override, <- orb_true_iff.
    destruct (_ || _); split; done. }
  split; [done|]. split.
  { intros Ht. by rewrite (Hr03 Ht). }
  split.
  { intros Hacc Hfmt.
    assert (accept = "*/*") as Hstar.
    { unfold accept. by destruct Hacc as [-> | ->]. }
    assert (Ch12_r02.check_json request st
            = (Raise (HTTPException BAD_REQUEST), st)) as Hrej.
    { rewrite check_json_r02. fold accept. rewrite Hstar.
      unfold format_json in Hfmt. rewrite <- format_override in Hfmt.
      apply not_true_is_false in Hfmt. by rewrite Hfmt. }
    split; [done|]. intros Ht. by rewrite (Hr03 Ht). }
  intros a b Hacc.
  assert (Py.contains "json" accept = true) as Hc.
  { apply contains_spec. exists a, b. unfold accept. by rewrite Hacc. }
  split.
  - rewrite check_json_r02. fold accept. by rewrite Hc.
  - unfold Ch12_r03.check_json. fold accept. rewrite Hc.
    by destruct (bool_decide _).
Qed.

End Gate.

(** ** Dealing several hands *)

(** Consecutive segments of a list, of the given lengths. *)
Fixpoint chunks {A} (ns : list nat) (l : list A) : list (list A) :=
  match ns with
  | [] => []
  | n :: ns' => take n l :: chunks ns' (drop n l)
  end.

(** The process after the deck [d] handed out the sizes [ns] in turn. *)
Definition dealt_all (ns : list nat) (d : Deck) (st : Process) : Process :=
  {| DEAL_APP_SEED := DEAL_APP_SEED st; entropy := entropy st; rng := rng st;
     deck := Some {| cards := drop (sum_list ns) (cards d);
                     dealt := dealt d ++ take (sum_list ns) (cards d) |};
     trace := trace st ++ (DeckDeal <$> ns) |}.

Definition valid_sizes (sizes : list Z) : bool :=
  forallb valid_size sizes && (Py.sum sizes <? 53).

Lemma sum_fold (l : list Z) (a : Z) : fold_left Z.add l a = a + Py.sum l.
Proof.
  unfold Py.sum. revert a. induction l as [|x l IH]; intros a; simpl; [lia|].
  rewrite (IH (a + x)), (IH (0 + x)). lia.
Qed.

Lemma sum_cons (x : Z) (l : list Z) : Py.sum (x :: l) = x + Py.sum l.
Proof. unfold Py.sum at 1. simpl. by rewrite sum_fold. Qed.

Lemma sum_list_cons (n : nat) (ns : list nat) :
  sum_list (n :: ns) = (n + sum_list ns)%nat.
Proof. reflexivity. Qed.

Lemma sum_to_nat (sizes : list Z) :
  Forall (fun n => 1 <= n < 53) sizes ->
  Z.of_nat (sum_list (Z.to_nat <$> sizes)) = Py.sum sizes.
Proof.
  induction 1 as [|x l Hx Hl IH]; [done|].
  rewrite sum_cons, fmap_cons, sum_list_cons. lia.
Qed.

Lemma valid_sizes_spec (sizes : list Z) :
  valid_sizes sizes = true <->
  Forall (fun n => 1 <= n < 53) sizes /\ Py.sum sizes < 53.
Proof.
  unfold valid_sizes.
  rewrite andb_true_iff, Z.ltb_lt, forallb_forall, Forall_forall.
  setoid_rewrite valid_size_spec. setoid_rewrite list_elem_of_In. done.
Qed.



Lemma chunks_concat {A} (ns : list nat) (l : list A) :
  concat (chunks ns l) = take (sum_list ns) l.
Proof.
  revert l. induction ns as [|m ns IH]; intros l.
  - by rewrite take_0.
  - cbn [chunks concat]. by rewrite IH, sum_list_cons, take_take_drop.
Qed.

Section MultiHand.
Context `{Random}.

Lemma multi_hand_eq request st :
  Ch12_r03.multi_hand request st =
    if valid_sizes (Ch12_r03.hand_sizes_arg request)
    then bind (for_each (fun n => deck_deal TheDeck (Z.to_nat n))
                        (Ch12_r03.hand_sizes_arg request))
              (fun hands => ret (jsonify (JsonHands (Py.enumerate hands))))
              (with_deck st)
    else (Raise (HTTPException BAD_REQUEST), st).
Proof.
  unfold Ch12_r03.multi_hand, valid_sizes. run.
  fold valid_size.
  destruct (forallb valid_size _); simpl; [|done].
  destruct (Py.sum _ <? 53); simpl; [|done].
  by rewrite get_deck_eq.
Qed.

Lemma for_each_deal (sizes : list Z) (st : Process) (d : Deck) :
  deck st = Some d ->
  (sum_list (Z.to_nat <$> sizes) <= length (cards d))%nat ->
  for_each (fun n => deck_deal TheDeck (Z.to_nat n)) sizes st =
    (Ret (chunks (Z.to_nat <$> sizes) (cards d)),
     dealt_all (Z.to_nat <$> sizes) d st).
Proof.
  revert st d. induction sizes as [|z sizes IH]; intros st d Hd Hsum.
  - unfold dealt_all. simpl. rewrite drop_0, take_0, !app_nil_r.
    destruct st, d; simpl in *; by subst.
  - rewrite fmap_cons, sum_list_cons in *.
    cbn [for_each chunks]. unfold bind at 1.
    rewrite (deck_deal_eq _ _ _ _ Hd).
    case_decide; [|lia]. unfold bind at 1.
    rewrite (IH (dealt_from (Z.to_nat z) d st)
                {| cards := drop (Z.to_nat z) (cards d);
                   dealt := dealt d ++ take (Z.to_nat z) (cards d) |});
      [|done|simpl; rewrite length_drop; lia].
    unfold ret, dealt_all, dealt_from. rewrite sum_list_cons. simpl.
    by rewrite drop_drop, <- !app_assoc, take_take_drop.
Qed.

(** The only exception the deals of a request can end in. *)
Lemma for_each_deal_exn (sizes : list Z) (st : Process) (d : Deck) e st' :
  deck st = Some d ->
  for_each (fun n => deck_deal TheDeck (Z.to_nat n)) sizes st = (Raise e, st') ->
  e = DeckExhausted.
Proof.
  revert st d. induction sizes as [|z zs IH]; intros st d Hd; [done|].
  cbn [for_each]. unfold bind at 1. rewrite (deck_deal_eq _ _ _ _ Hd).
  case_decide; [|by intros [= <- _]]. unfold bind at 1.
  destruct (for_each _ zs _) as [r st''] eqn:Hrun.
  destruct r as [hs|e']; [done|].
  intros [= -> ->]. eapply IH; [|exact Hrun]. reflexivity.
Qed.

End MultiHand.

Lemma chunks_lengths {A} (ns : list nat) (l : list A) :
  (sum_list ns <= length l)%nat ->
  Forall2 (fun h n => length h = n) (chunks ns l) ns.
Proof.
  revert l. induction ns as [|n ns IH]; intros l Hsum; [by constructor|].
  rewrite sum_list_cons in Hsum. cbn [chunks]. constructor.
  - rewrite length_take. lia.
  - apply IH. rewrite length_drop. lia.
Qed.

Lemma chunks_sizes {A} (sizes : list Z) (l : list A) :
  Forall (fun n => 1 <= n < 53) sizes ->
  (sum_list (Z.to_nat <$> sizes) <= length l)%nat ->
  Forall2 (fun h n => Z.of_nat (length h) = n) (chunks (Z.to_nat <$> sizes) l) sizes.
Proof.
  intros Hin. revert l. induction Hin as [|z zs Hz Hzs IH]; intros l Hsum.
  - by constructor.
  - rewrite fmap_cons, sum_list_cons in *. cbn [chunks]. constructor.
    + rewrite length_take. lia.
    + apply IH. rewrite length_drop. lia.
Qed.

Section MultiHandClaims.
Context `{Random}.

Lemma multi_hand_invalid request st :
  valid_sizes (Ch12_r03.hand_sizes_arg request) = false ->
  Ch12_r03.multi_hand request st = (Raise (HTTPException BAD_REQUEST), st).
Proof. intros Hv. by rewrite multi_hand_eq, Hv. Qed.

(** A valid request against a deck that holds enough cards. *)
Lemma multi_hand_valid request st ns :
  ns = Z.to_nat <$> Ch12_r03.hand_sizes_arg request ->
  valid_sizes (Ch12_r03.hand_sizes_arg request) = true ->
  (sum_list ns <= length (cards (the_deck st)))%nat ->
  Ch12_r03.multi_hand request st =
    (Ret (jsonify (JsonHands (Py.enumerate (chunks ns (cards (the_deck st)))))),
     dealt_all ns (the_deck st) (with_deck st)).
Proof.
  intros -> Hv Hsum. rewrite multi_hand_eq, Hv. unfold bind.
  by rewrite (for_each_deal _ _ _ (with_deck_deck st) Hsum).
Qed.

(** C3.  The sizes of a [/dealer/hands] request are the [cards] values
    read as integers, and exactly [[13; 13; 13; 13]] when no [cards]
    parameter is supplied.  The view answers 400 exactly when some size
    lies outside [1, 53) or the sizes do not sum to less than 53: sizes
    that sum to 53 are refused, while sizes in range that sum to 52 are
    dealt in full from a process that has no deck yet, one hand per size
    and of that size. *)
Theorem multi_hand_sizes (request : Request) (st : Process) :
  let supplied := getlist_type "cards" Py.int (args request) in
  let sizes := Ch12_r03.hand_sizes_arg request in
  let in_range := Forall (fun n => 1 <= n < 53) sizes in
  (getlist "cards" (args request) = [] -> sizes = [13; 13; 13; 13]) /\
  (supplied <> [] -> sizes = supplied) /\
  (fst (Ch12_r03.multi_hand request st) = Raise (HTTPException BAD_REQUEST)
   <-> ~ (in_range /\ Py.sum sizes < 53)) /\
  (Py.sum sizes = 53 ->
   Ch12_r03.multi_hand request st = (Raise (HTTPException BAD_REQUEST), st)) /\
  (in_range -> Py.sum sizes = 52 -> deck st = None ->
   exists hands,
     fst (Ch12_r03.multi_hand request st)
       = Ret (jsonify (JsonHands (Py.enumerate hands))) /\
     Forall2 (fun hand n => Z.of_nat (length hand) = n) hands sizes /\
     length (concat hands) = 52%nat).
Proof.
  intros supplied sizes in_range.
  split.
  { intros Hnone. unfold sizes, Ch12_r03.hand_sizes_arg, getlist_type.
    by rewrite Hnone. }
  split.
  { intros Hsome. unfold sizes, Ch12_r03.hand_sizes_arg. fold supplied.
    case_decide as Hlen; [|done]. by destruct supplied. }
  split.
  { unfold in_range. rewrite <- (valid_sizes_spec sizes).
    rewrite multi_hand_eq. fold sizes.
    destruct (valid_sizes sizes) eqn:Hv.
    - split; [|done]. unfold bind.
      destruct (for_each _ _ _) as [r st'] eqn:Hrun.
      destruct r as [hands|e]; [done|].
      simpl. intros [= ->].
      by pose proof (for_each_deal_exn _ _ _ _ _ (with_deck_deck st) Hrun).
    - split; [intros _; by intros ?|done]. }
  split.
  { intros H53. apply multi_hand_invalid. apply not_true_is_false.
    rewrite valid_sizes_spec. fold sizes. lia. }
  intros Hin H52 Hfresh.
  assert (Hv : valid_sizes sizes = true) by (apply valid_sizes_spec; split; [done|lia]).
  pose proof (sum_to_nat sizes Hin) as Hnat.
  pose proof (Deck_new_length (seed_of st)) as Hlen.
  rewrite <- (the_deck_fresh st Hfresh) in Hlen.
  exists (chunks (Z.to_nat <$> sizes) (cards (the_deck st))).
  rewrite (multi_hand_valid _ _ (Z.to_nat <$> sizes)); [|done|done|lia].
  split; [done|]. split.
  - apply chunks_sizes; [done|lia].
  - rewrite chunks_concat, length_take. lia.
Qed.

End MultiHandClaims.

Section MultiHandValidation.
Context `{Random}.

(** C4.  A [/dealer/hands] request whose sizes fail the check (one of
    them outside [1, 53), or a sum of 53 or more) is answered 400 and
    leaves the whole process state as it was: the deck, when there is
    one, keeps every card, no deck is built when there is none, and no
    call of [deal] is recorded. *)
Theorem multi_hand_rejected_untouched (request : Request) (st : Process) :
  let sizes := Ch12_r03.hand_sizes_arg request in
  Exists (fun n => ~ 1 <= n < 53) sizes \/ 53 <= Py.sum sizes ->
  Ch12_r03.multi_hand request st = (Raise (HTTPException BAD_REQUEST), st) /\
  (path request = "/dealer/hands" ->
   Ch12_r03.wsgi_app request st = ({| status := BAD_REQUEST; body := NoBody |}, st)).
Proof.
  intros sizes Hbad.
  assert (Hrej : Ch12_r03.multi_hand request st
                 = (Raise (HTTPException BAD_REQUEST), st)).
  { apply multi_hand_invalid. apply not_true_is_false.
    rewrite valid_sizes_spec. fold sizes. intros [Hin Hsum].
    destruct Hbad as [Hex|Hge]; [|lia].
    apply Exists_exists in Hex as (n & Hn & Hout).
    rewrite Forall_forall in Hin. by apply Hout, Hin. }
  split; [done|]. intros Hpath.
  unfold Ch12_r03.wsgi_app. rewrite full_dispatch_r03.
  destruct (check_json_cases request st) as [Hc|Hc]; rewrite Hc; [|done].
  by rewrite (dispatch_hands _ _ Hpath), Hrej.
Qed.

(** C2, as the code has it.  [getlist("cards", type=int)] leaves out the
    values that [int] refuses, so [ValueError] never reaches the handler of
    [multi_hand]: the request [/dealer/hands?cards=abc&cards=5], sent with
    [Accept: application/json] to a new process, is answered 200 with one
    hand of five cards, and [/dealer/hands?cards=abc] with the four
    default hands. *)
Theorem multi_hand_skips_unparseable (seed : option string) (e : N) :
  let request (a : MultiDict) :=
    {| PATH_INFO := "/dealer/hands"; headers := [("Accept", "application/json")];
       args := a |} in
  Py.int "abc" = None /\
  (exists cs,
     fst (Ch12_r03.wsgi_app (request [("cards", "abc"); ("cards", "5")])
                            (start seed e))
       = {| status := OK; body := JsonHands [(0%nat, cs)] |} /\
     length cs = 5%nat) /\
  (exists h0 h1 h2 h3,
     fst (Ch12_r03.wsgi_app (request [("cards", "abc")]) (start seed e))
       = {| status := OK;
            body := JsonHands [(0%nat, h0); (1%nat, h1); (2%nat, h2); (3%nat, h3)] |}).
Proof.
  intros request. split; [reflexivity|].
  pose proof (Deck_new_length (seed_of (start seed e))) as Hlen.
  rewrite <- (the_deck_fresh (start seed e) eq_refl) in Hlen.
  split.
  - exists (take 5 (cards (the_deck (start seed e)))).
    unfold Ch12_r03.wsgi_app. rewrite full_dispatch_r03.
    change (Ch12_r03.check_json _ _) with (@Ret (option Response) None, start seed e).
    cbv iota beta.
    rewrite (dispatch_hands (request [("cards", "abc"); ("cards", "5")]) _ eq_refl).
    rewrite (multi_hand_valid _ _ [5%nat]);
      [|done|done|rewrite Hlen; by apply Nat.leb_le].
    split; [done|]. rewrite length_take. lia.
  - eexists _, _, _, _.
    unfold Ch12_r03.wsgi_app. rewrite full_dispatch_r03.
    change (Ch12_r03.check_json _ _) with (@Ret (option Response) None, start seed e).
    cbv iota beta.
    rewrite (dispatch_hands (request [("cards", "abc")]) _ eq_refl).
    rewrite (multi_hand_valid _ _ [13; 13; 13; 13]%nat);
      [|done|done|rewrite Hlen; by apply Nat.leb_le].
    reflexivity.
Qed.

End MultiHandValidation.

(** ** How a process evolves *)

(** [st'] comes from [st] by calls of [deck.deal] alone: the inputs and the
    generator are as they were, the trace grew by calls of [deal], and the
    deck of [st], when it has one, gave cards from its front. *)
Definition extends (st st' : Process) : Prop :=
  DEAL_APP_SEED st' = DEAL_APP_SEED st /\
  entropy st' = entropy st /\
  rng st' = rng st /\
  (exists deals, trace st' = trace st ++ (DeckDeal <$> deals)) /\
  (forall d, deck st = Some d ->
     exists k, deck st' = Some {| cards := drop k (cards d);
                                  dealt := dealt d ++ take k (cards d) |}).

(** The effects that set a deck up. *)
Definition setup (g : SeedValue) : list Event :=
  [EnvironGet "DEAL_APP_SEED"; RandomSeed g; DeckCreated].

(** What holds of every process the application can be in: before the
    first deck nothing has happened; afterwards the generator holds the
    seed of the environment, the trace is the one setup followed by calls
    of [deal], and the cards dealt followed by the cards remaining are the
    deck as it was shuffled. *)
Definition process_inv `{Random} (st : Process) : Prop :=
  match deck st with
  | None => trace st = []
  | Some d =>
      rng st = seed_of st /\
      dealt d ++ cards d = shuffle (seed_of st) standard_cards /\
      exists deals, trace st = setup (seed_of st) ++ (DeckDeal <$> deals)
  end.

Lemma extends_refl st : deck st <> None -> extends st st.
Proof.
  intros Hd. repeat split; try done.
  - exists []. simpl. by rewrite app_nil_r.
  - intros d Hsome. exists 0%nat. rewrite drop_0, take_0, app_nil_r.
    rewrite Hsome. by destruct d.
Qed.

Lemma extends_trans st1 st2 st3 :
  extends st1 st2 -> extends st2 st3 -> deck st1 <> None -> extends st1 st3.
Proof.
  intros (Hs1 & He1 & Hg1 & [t1 Ht1] & Hd1) (Hs2 & He2 & Hg2 & [t2 Ht2] & Hd2) Hsome.
  repeat split; try congruence.
  - exists (t1 ++ t2). by rewrite Ht2, Ht1, fmap_app, app_assoc.
  - intros d Hd. destruct (Hd1 d Hd) as [k1 Hk1].
    destruct (Hd2 _ Hk1) as [k2 Hk2]. exists (k1 + k2)%nat.
    rewrite Hk2. simpl. by rewrite drop_drop, <- app_assoc, take_take_drop.
Qed.

Section Evolution.
Context `{Random}.

Lemma with_deck_some st : deck (with_deck st) <> None.
Proof. by rewrite with_deck_deck. Qed.

Lemma deck_deal_extends r n st :
  deck st <> None -> extends st (snd (deck_deal r n st)).
Proof.
  intros Hsome. destruct (deck st) as [d|] eqn:Hd; [|done].
  rewrite (deck_deal_eq _ _ _ _ Hd). case_decide; simpl.
  - repeat split; try done.
    + by exists [n].
    + intros d' Hd'. exists n. by simplify_eq.
  - repeat split; try done.
    + by exists [n].
    + intros d' Hd'. exists 0%nat. rewrite drop_0, take_0, app_nil_r.
      simplify_eq. simpl. rewrite Hd. by destruct d.
Qed.

Lemma extends_deck st st' : extends st st' -> deck st <> None -> deck st' <> None.
Proof.
  intros (_ & _ & _ & _ & Hd) Hsome.
  destruct (deck st) as [d|]; [|done]. destruct (Hd d eq_refl) as [k ->]. done.
Qed.

Lemma for_each_extends (sizes : list Z) st :
  deck st <> None ->
  extends st (snd (for_each (fun n => deck_deal TheDeck (Z.to_nat n)) sizes st)).
Proof.
  revert st. induction sizes as [|z zs IH]; intros st Hsome.
  - by apply extends_refl.
  - cbn [for_each]. unfold bind at 1.
    pose proof (deck_deal_extends TheDeck (Z.to_nat z) st Hsome) as Hstep.
    destruct (deck_deal TheDeck (Z.to_nat z) st) as [r st1]. simpl in Hstep.
    destruct r as [hand|e]; [|done].
    unfold bind at 1.
    pose proof (IH st1 (extends_deck _ _ Hstep Hsome)) as Hrest.
    destruct (for_each _ zs st1) as [r st2]. simpl in Hrest.
    destruct r; simpl; by eapply extends_trans.
Qed.

(** A view either leaves the process as it was or gets the deck and deals
    from it. *)
Lemma deal_step request st :
  snd (Ch12_r03.deal request st) = st \/
  extends (with_deck st) (snd (Ch12_r03.deal request st)).
Proof.
  rewrite deal_eq. destruct (Ch12_r03.cards_arg request) as [n|]; [|by left].
  destruct (valid_size n); [|by left]. right. unfold bind.
  pose proof (deck_deal_extends TheDeck (Z.to_nat n) _ (with_deck_some st)) as Hstep.
  destruct (deck_deal _ _ _) as [r st1]. by destruct r.
Qed.

Lemma multi_hand_step request st :
  snd (Ch12_r03.multi_hand request st) = st \/
  extends (with_deck st) (snd (Ch12_r03.multi_hand request st)).
Proof.
  rewrite multi_hand_eq. destruct (valid_sizes _); [|by left]. right.
  unfold bind.
  pose proof (for_each_extends (Ch12_r03.hand_sizes_arg request) _
                (with_deck_some st)) as Hstep.
  destruct (for_each _ _ _) as [r st1]. by destruct r.
Qed.

Lemma wsgi_app_step request st :
  snd (Ch12_r03.wsgi_app request st) = st \/
  extends (with_deck st) (snd (Ch12_r03.wsgi_app request st)).
Proof.
  unfold Ch12_r03.wsgi_app. rewrite full_dispatch_r03.
  destruct (check_json_cases request st) as [Hc|Hc]; rewrite Hc; [|by left].
  rewrite dispatch_r03.
  repeat case_decide; try (by left);
    try (destruct (bool_decide _); [by left|]; destruct (served _ _); by left).
  - pose proof (deal_step request st) as Hstep.
    destruct (Ch12_r03.deal request st) as [r st1].
    destruct r as [?|[]]; exact Hstep.
  - pose proof (multi_hand_step request st) as Hstep.
    destruct (Ch12_r03.multi_hand request st) as [r st1].
    destruct r as [?|[]]; exact Hstep.
Qed.

End Evolution.

(** ** The invariant of the process *)

Definition reads_environ (ev : Event) : bool :=
  match ev with EnvironGet _ => true | _ => false end.

Definition seeds_generator (ev : Event) : bool :=
  match ev with RandomSeed _ => true | _ => false end.

Definition creates_deck (ev : Event) : bool :=
  match ev with DeckCreated => true | _ => false end.

(** How often an effect of some kind occurs in a trace. *)
Definition occurrences (p : Event -> bool) (t : list Event) : nat :=
  length (List.filter p t).

Lemma occurrences_deals (p : Event -> bool) (deals : list nat) :
  (forall n, p (DeckDeal n) = false) ->
  occurrences p (DeckDeal <$> deals) = 0%nat.
Proof.
  intros Hp. unfold occurrences.
  induction deals as [|n deals IH]; [done|].
  rewrite fmap_cons. cbn [List.filter]. by rewrite Hp.
Qed.

Lemma occurrences_app p t1 t2 :
  occurrences p (t1 ++ t2) = (occurrences p t1 + occurrences p t2)%nat.
Proof. unfold occurrences. by rewrite List.filter_app, length_app. Qed.

Section Invariant.
Context `{Random}.

Lemma inv_start seed e : process_inv (start seed e).
Proof. done. Qed.

Lemma with_deck_seed st : seed_of (with_deck st) = seed_of st.
Proof. unfold with_deck. by destruct (deck st). Qed.

Lemma inv_with_deck st : process_inv st -> process_inv (with_deck st).
Proof.
  unfold process_inv, with_deck.
  destruct (deck st) as [d|] eqn:Hd; [by rewrite Hd|].
  intros Ht. simpl. repeat split. exists []. rewrite Ht. reflexivity.
Qed.

Lemma extends_seed st st' : extends st st' -> seed_of st' = seed_of st.
Proof. intros (Hs & He & _). unfold seed_of. by rewrite Hs, He. Qed.

Lemma inv_extends st st' :
  process_inv st -> deck st <> None -> extends st st' -> process_inv st'.
Proof.
  unfold process_inv. intros Hinv Hsome Hext.
  pose proof (extends_seed _ _ Hext) as Hseed.
  destruct Hext as (_ & _ & Hg & [t Ht] & Hd).
  destruct (deck st) as [d|]; [|done].
  destruct (Hd d eq_refl) as [k ->].
  destruct Hinv as (Hrng & Horder & [deals Hdeals]).
  rewrite Hseed. repeat split.
  - congruence.
  - simpl. by rewrite <- app_assoc, take_drop.
  - exists (deals ++ t). by rewrite Ht, Hdeals, fmap_app, app_assoc.
Qed.

Lemma inv_wsgi_app request st :
  process_inv st -> process_inv (snd (Ch12_r03.wsgi_app request st)).
Proof.
  intros Hinv. destruct (wsgi_app_step request st) as [-> | Hext]; [done|].
  eapply inv_extends; [by apply inv_with_deck|apply with_deck_some|done].
Qed.

Lemma wsgi_app_seed request st :
  seed_of (snd (Ch12_r03.wsgi_app request st)) = seed_of st.
Proof.
  destruct (wsgi_app_step request st) as [-> | Hext]; [done|].
  by rewrite (extends_seed _ _ Hext), with_deck_seed.
Qed.

Lemma serve_cons request requests st :
  Ch12_r03.serve (request :: requests) st =
    (fst (Ch12_r03.wsgi_app request st)
       :: fst (Ch12_r03.serve requests (snd (Ch12_r03.wsgi_app request st))),
     snd (Ch12_r03.serve requests (snd (Ch12_r03.wsgi_app request st)))).
Proof.
  cbn [Ch12_r03.serve]. destruct (Ch12_r03.wsgi_app request st) as [resp st1].
  simpl. by destruct (Ch12_r03.serve requests st1).
Qed.

Lemma inv_serve requests st :
  process_inv st ->
  process_inv (snd (Ch12_r03.serve requests st)) /\
  seed_of (snd (Ch12_r03.serve requests st)) = seed_of st.
Proof.
  revert st. induction requests as [|r rs IH]; intros st Hinv; [done|].
  rewrite serve_cons. simpl.
  destruct (IH _ (inv_wsgi_app r st Hinv)) as [Hi Hs].
  split; [done|]. by rewrite Hs, wsgi_app_seed.
Qed.

(** Once there is a deck, a request only takes cards from its front. *)
Lemma wsgi_app_deck request st d :
  deck st = Some d ->
  exists k, deck (snd (Ch12_r03.wsgi_app request st))
            = Some {| cards := drop k (cards d);
                      dealt := dealt d ++ take k (cards d) |}.
Proof.
  intros Hd.
  assert (with_deck st = st) as Hw by (unfold with_deck; by rewrite Hd).
  destruct (wsgi_app_step request st) as [-> | Hext].
  - exists 0%nat. rewrite drop_0, take_0, app_nil_r, Hd. by destruct d.
  - rewrite Hw in Hext. destruct Hext as (_ & _ & _ & _ & Hk). by apply Hk.
Qed.

(** C7.  [get_deck] builds the deck at most once.  A call made when the
    global holds a deck returns it and changes nothing: no look at the
    environment, no seeding, no new deck.  The call that finds no deck
    reads [DEAL_APP_SEED] once, seeds the generator with it once and keeps
    the one new deck.  So in every state a process reaches, each of these
    three effects has occurred at most once, and the cards dealt followed
    by the cards remaining are still the deck as first shuffled; a request
    served when a deck exists leaves a suffix of its remaining cards, in
    the same order.  The two recipes have the same [get_deck]. *)
Theorem deck_built_once :
  (forall st d, deck st = Some d -> Ch12_r03.get_deck st = (Ret TheDeck, st)) /\
  (forall st, deck st = None ->
     exists st', Ch12_r03.get_deck st = (Ret TheDeck, st') /\
       deck st' = Some (Deck_new (seed_of st)) /\
       rng st' = seed_of st /\
       trace st' = trace st ++ setup (seed_of st)) /\
  Ch12_r02.get_deck = Ch12_r03.get_deck /\
  (forall seed e requests,
     let st := snd (Ch12_r03.serve requests (start seed e)) in
     (occurrences reads_environ (trace st) <= 1)%nat /\
     (occurrences seeds_generator (trace st) <= 1)%nat /\
     (occurrences creates_deck (trace st) <= 1)%nat /\
     (forall d, deck st = Some d ->
        dealt d ++ cards d = shuffle (seed_of (start seed e)) standard_cards)) /\
  (forall st request d, deck st = Some d ->
     exists d', deck (snd (Ch12_r03.wsgi_app request st)) = Some d' /\
       cards d' `suffix_of` cards d /\
       dealt d' ++ cards d' = dealt d ++ cards d).
Proof.
  split; [|split; [|split; [|split]]].
  - intros st d Hd. rewrite get_deck_eq. unfold with_deck. by rewrite Hd.
  - intros st Hd. eexists. rewrite get_deck_eq. split; [done|].
    unfold with_deck. by rewrite Hd.
  - reflexivity.
  - intros seed e requests st.
    destruct (inv_serve requests (start seed e) (inv_start seed e)) as [Hinv Hseed].
    fold st in Hinv, Hseed. unfold process_inv in Hinv.
    destruct (deck st) as [d|] eqn:Hd.
    + destruct Hinv as (_ & Horder & [deals ->]).
      rewrite !occurrences_app, !occurrences_deals by done.
      repeat split; try (unfold occurrences; simpl; lia).
      intros d' [= <-]. by rewrite <- Hseed.
    + rewrite Hinv. repeat split; try (unfold occurrences; simpl; lia). done.
  - intros st request d Hd.
    destruct (wsgi_app_deck request st d Hd) as [k Hk].
    eexists. split; [exact Hk|]. simpl. split.
    + apply suffix_drop.
    + by rewrite <- app_assoc, take_drop.
Qed.

End Invariant.

(** ** The cards of the deck *)

Lemma standard_cards_NoDup : NoDup standard_cards.
Proof. apply (bool_decide_unpack _). by vm_compute. Qed.

Section DeckCards.
Context `{Random}.

Lemma inv_deck st d :
  process_inv st -> deck st = Some d -> dealt d ++ cards d ≡ₚ standard_cards.
Proof.
  unfold process_inv. intros Hinv Hd. rewrite Hd in Hinv.
  destruct Hinv as (_ & -> & _). apply shuffle_perm.
Qed.

Lemma the_deck_perm st :
  process_inv st ->
  dealt (the_deck st) ++ cards (the_deck st) ≡ₚ standard_cards.
Proof.
  intros Hinv. apply (inv_deck (with_deck st)).
  - by apply inv_with_deck.
  - apply with_deck_deck.
Qed.

Lemma the_deck_dealt_from n d st :
  the_deck (dealt_from n d st)
  = {| cards := drop n (cards d); dealt := dealt d ++ take n (cards d) |}.
Proof. reflexivity. Qed.

Lemma perm_standard (l1 l2 : list Card) :
  l1 ++ l2 ≡ₚ standard_cards ->
  (length l2 + length l1 = 52)%nat /\ NoDup (l2 ++ l1) /\ NoDup (l1 ++ l2).
Proof.
  intros Hp. split; [|split].
  - apply Permutation_length in Hp. rewrite length_app in Hp.
    change (length standard_cards) with 52%nat in Hp. lia.
  - rewrite (Permutation_app_comm l2 l1), Hp. apply standard_cards_NoDup.
  - rewrite Hp. apply standard_cards_NoDup.
Qed.

(** C9.  [Deck.deal(n)] on a deck that holds at least [n] cards returns
    its first [n] cards, leaves [n] fewer and keeps the order of dealt
    plus remaining; on a deck that holds fewer it fails, which the process
    sees as [DeckExhausted], and the deck stays as it was.  In every state
    a process reaches, the cards dealt and the cards remaining together
    are a permutation of the standard set: 52 in all, none twice.  In
    such a state a single-hand request whose size [n] passed the check
    and does not exceed the remaining count is answered with the first
    [n] cards of the deck: exactly [n], all distinct, all of the standard
    set, none of them dealt before and none left in the deck, whose
    remaining count has dropped by [n]; a request whose size exceeds the
    remaining count ends in [DeckExhausted], which the client sees as
    500, and takes no card.  Conversely a single-hand request is answered
    with cards only in the first case. *)
Theorem deal_hands_out_n :
  (forall n d, (n <= length (cards d))%nat ->
     exists hand d', Deck_deal n d = (Some hand, d') /\
       hand = take n (cards d) /\
       length hand = n /\
       (length (cards d') + n = length (cards d))%nat /\
       dealt d' = dealt d ++ hand /\
       dealt d' ++ cards d' = dealt d ++ cards d) /\
  (forall n d, (length (cards d) < n)%nat -> Deck_deal n d = (None, d)) /\
  (forall r n st d, deck st = Some d -> (length (cards d) < n)%nat ->
     fst (deck_deal r n st) = Raise DeckExhausted /\
     deck (snd (deck_deal r n st)) = Some d) /\
  (forall seed e requests d,
     deck (snd (Ch12_r03.serve requests (start seed e))) = Some d ->
     dealt d ++ cards d ≡ₚ standard_cards /\
     (length (cards d) + length (dealt d) = 52)%nat /\
     NoDup (cards d ++ dealt d)) /\
  (forall seed e requests request n,
     let st := snd (Ch12_r03.serve requests (start seed e)) in
     let st' := snd (Ch12_r03.deal request st) in
     Ch12_r03.cards_arg request = Some n -> 1 <= n < 53 ->
     (Z.to_nat n <= length (cards (the_deck st)))%nat ->
     exists cs,
       fst (Ch12_r03.deal request st) = Ret (jsonify (JsonCards cs)) /\
       cs = take (Z.to_nat n) (cards (the_deck st)) /\
       Z.of_nat (length cs) = n /\
       NoDup cs /\ cs ⊆ standard_cards /\
       deck st' = Some {| cards := drop (Z.to_nat n) (cards (the_deck st));
                          dealt := dealt (the_deck st) ++ cs |} /\
       (length (cards (the_deck st')) + length cs
        = length (cards (the_deck st)))%nat /\
       (forall c, c ∈ cs ->
          (c ∉ dealt (the_deck st)) /\ (c ∉ cards (the_deck st'))) /\
       (path request = "/dealer/hand" ->
        Ch12_r03.check_json request st = (Ret None, st) ->
        Ch12_r03.wsgi_app request st = (jsonify (JsonCards cs), st'))) /\
  (forall seed e requests request n,
     let st := snd (Ch12_r03.serve requests (start seed e)) in
     let st' := snd (Ch12_r03.deal request st) in
     Ch12_r03.cards_arg request = Some n -> 1 <= n < 53 ->
     (length (cards (the_deck st)) < Z.to_nat n)%nat ->
     fst (Ch12_r03.deal request st) = Raise DeckExhausted /\
     deck st' = Some (the_deck st) /\
     (path request = "/dealer/hand" ->
      Ch12_r03.check_json request st = (Ret None, st) ->
      Ch12_r03.wsgi_app request st
      = ({| status := INTERNAL_SERVER_ERROR; body := NoBody |}, st'))) /\
  (forall seed e requests request cs,
     let st := snd (Ch12_r03.serve requests (start seed e)) in
     let st' := snd (Ch12_r03.deal request st) in
     fst (Ch12_r03.deal request st) = Ret (jsonify (JsonCards cs)) ->
     exists n, Ch12_r03.cards_arg request = Some n /\ 1 <= n < 53 /\
       Z.of_nat (length cs) = n /\
       NoDup cs /\ cs ⊆ standard_cards /\
       (length (cards (the_deck st')) + length cs
        = length (cards (the_deck st)))%nat /\
       (forall c, c ∈ cs ->
          (c ∉ dealt (the_deck st)) /\ (c ∉ cards (the_deck st')))).
Proof.
  assert (Hcards : forall seed e requests (n : Z),
            let st := snd (Ch12_r03.serve requests (start seed e)) in
            let cs := take (Z.to_nat n) (cards (the_deck st)) in
            1 <= n < 53 ->
            (Z.to_nat n <= length (cards (the_deck st)))%nat ->
            Z.of_nat (length cs) = n /\ NoDup cs /\ cs ⊆ standard_cards /\
            (length (drop (Z.to_nat n) (cards (the_deck st))) + length cs
             = length (cards (the_deck st)))%nat /\
            (forall c, c ∈ cs ->
               (c ∉ dealt (the_deck st)) /\
               (c ∉ drop (Z.to_nat n) (cards (the_deck st))))).
  { intros seed e requests n st cs Hv Hn.
    destruct (inv_serve requests (start seed e) (inv_start seed e)) as [Hinv _].
    fold st in Hinv. pose proof (the_deck_perm st Hinv) as Hp.
    destruct (perm_standard _ _ Hp) as (Hlen & _ & Hnd).
    apply NoDup_app in Hnd as (_ & Hdisj & Hndc).
    rewrite <- (take_drop (Z.to_nat n) (cards (the_deck st))) in Hndc.
    apply NoDup_app in Hndc as (Hndt & Hdisj' & _).
    subst cs. repeat split.
    - rewrite length_take. lia.
    - done.
    - intros c Hc. rewrite <- Hp. apply elem_of_app. right.
      by eapply subseteq_take.
    - rewrite length_drop, length_take. lia.
    - intros Hc'. eapply Hdisj; [exact Hc'|]. by eapply subseteq_take.
    - by apply Hdisj'. }
  split; [|split; [|split; [|split; [|split; [|split]]]]].
  - intros n d Hn. unfold Deck_deal. case_decide; [|lia].
    eexists _, _. split; [done|]. simpl. repeat split.
    + rewrite length_take. lia.
    + rewrite length_drop. lia.
    + by rewrite <- app_assoc, take_drop.
  - intros n d Hn. unfold Deck_deal. case_decide; [lia|done].
  - intros r n st d Hd Hn. rewrite (deck_deal_eq _ _ _ _ Hd).
    case_decide; [lia|done].
  - intros seed e requests d Hd.
    destruct (inv_serve requests (start seed e) (inv_start seed e)) as [Hinv _].
    pose proof (inv_deck _ _ Hinv Hd) as Hp. split; [done|].
    by destruct (perm_standard _ _ Hp) as (? & ? & ?).
  - intros seed e requests request n st st' Hn Hv Hle.
    destruct (Hcards seed e requests n Hv Hle) as (Hlen & Hnd & Hsub & Hrem & Hnew).
    fold st in Hlen, Hnd, Hsub, Hrem, Hnew.
    exists (take (Z.to_nat n) (cards (the_deck st))).
    subst st'. rewrite (deal_valid _ _ n Hn Hv). case_decide; [|lia].
    cbn [fst snd]. rewrite the_deck_dealt_from. cbn [cards].
    repeat split; try done;
      try (by eapply proj1, Hnew); try (by eapply proj2, Hnew).
    intros Hpath Hgate. unfold Ch12_r03.wsgi_app.
    rewrite full_dispatch_r03, Hgate, (dispatch_hand _ _ Hpath).
    rewrite (deal_valid _ _ n Hn Hv). by case_decide.
  - intros seed e requests request n st st' Hn Hv Hlt.
    subst st'. rewrite (deal_valid _ _ n Hn Hv). case_decide; [lia|].
    cbn [fst snd]. split; [done|]. split.
    + change (deck (logged _ (with_deck st))) with (deck (with_deck st)).
      apply with_deck_deck.
    + intros Hpath Hgate. unfold Ch12_r03.wsgi_app.
      rewrite full_dispatch_r03, Hgate, (dispatch_hand _ _ Hpath).
      rewrite (deal_valid _ _ n Hn Hv). by case_decide.
  - intros seed e requests request cs st st' Hret.
    subst st'. revert Hret. rewrite deal_eq.
    destruct (Ch12_r03.cards_arg request) as [n|]; [|done].
    destruct (valid_size n) eqn:Hv; [|done].
    apply valid_size_spec in Hv. unfold bind, ret.
    rewrite (deck_deal_eq _ _ _ _ (with_deck_deck st)).
    case_decide as Hn; [|done]. cbn [fst snd]. intros [= <-].
    destruct (Hcards seed e requests n Hv Hn) as (Hlen & Hnd & Hsub & Hrem & Hnew).
    fold st in Hlen, Hnd, Hsub, Hrem, Hnew.
    exists n. rewrite the_deck_dealt_from. cbn [cards].
    repeat split; try done; try lia;
      try (by eapply proj1, Hnew); by eapply proj2, Hnew.
Qed.

End DeckCards.

(** ** Several hands from one deck *)


Section SeveralHands.
Context `{Random}.




End SeveralHands.

(** ** Two runs with one seed *)

(** Two processes that were given the same seed text and have so far done
    the same: they may differ in the entropy of their systems, and in the
    state of a generator that was not seeded yet. *)
Definition same_run (st1 st2 : Process) : Prop :=
  DEAL_APP_SEED st1 = DEAL_APP_SEED st2 /\
  DEAL_APP_SEED st1 <> None /\
  deck st1 = deck st2 /\
  trace st1 = trace st2.

Section TwoRuns.
Context `{Random}.

Lemma same_run_seed st1 st2 : same_run st1 st2 -> seed_of st1 = seed_of st2.
Proof.
  intros (Hs & Hsome & _). unfold seed_of. rewrite <- Hs.
  by destruct (DEAL_APP_SEED st1).
Qed.

Lemma same_run_with_deck st1 st2 :
  same_run st1 st2 -> same_run (with_deck st1) (with_deck st2).
Proof.
  intros Hsame. pose proof (same_run_seed _ _ Hsame) as Hseed.
  destruct Hsame as (Hs & Hsome & Hd & Ht). unfold with_deck.
  rewrite <- Hd. destruct (deck st1) eqn:Hd1;
    repeat split; simpl; congruence.
Qed.

Lemma same_run_deck_deal r n st1 st2 :
  same_run st1 st2 -> deck st1 <> None ->
  fst (deck_deal r n st1) = fst (deck_deal r n st2) /\
  same_run (snd (deck_deal r n st1)) (snd (deck_deal r n st2)).
Proof.
  intros (Hs & Hsome & Hd & Ht) Hdeck.
  destruct (deck st1) as [d|] eqn:Hd1; [|done]. symmetry in Hd.
  rewrite (deck_deal_eq _ _ _ _ Hd1), (deck_deal_eq _ _ _ _ Hd).
  case_decide; (split; [done|]); repeat split; simpl; congruence.
Qed.

Lemma same_run_for_each (sizes : list Z) st1 st2 :
  same_run st1 st2 -> deck st1 <> None ->
  let f := fun n => deck_deal TheDeck (Z.to_nat n) in
  fst (for_each f sizes st1) = fst (for_each f sizes st2) /\
  same_run (snd (for_each f sizes st1)) (snd (for_each f sizes st2)).
Proof.
  intros Hsame Hdeck f. revert st1 st2 Hsame Hdeck.
  induction sizes as [|z zs IH]; intros st1 st2 Hsame Hdeck; [done|].
  cbn [for_each]. unfold bind at 1 3 5 7.
  destruct (same_run_deck_deal TheDeck (Z.to_nat z) _ _ Hsame Hdeck) as [Hr Hs].
  pose proof (extends_deck _ _ (deck_deal_extends TheDeck (Z.to_nat z) st1 Hdeck)
                Hdeck) as Hdeck'.
  unfold f at 1 3 5 7.
  destruct (deck_deal TheDeck (Z.to_nat z) st1) as [r1 st1'].
  destruct (deck_deal TheDeck (Z.to_nat z) st2) as [r2 st2'].
  simpl in Hr, Hs, Hdeck'. subst r2. destruct r1 as [hand|ex]; [|done].
  unfold bind.
  destruct (IH _ _ Hs Hdeck') as [Hr' Hs'].
  destruct (for_each f zs st1') as [r1 st1''].
  destruct (for_each f zs st2') as [r2 st2''].
  simpl in Hr', Hs'. subst r2. by destruct r1.
Qed.

Lemma same_run_wsgi_app request st1 st2 :
  same_run st1 st2 ->
  fst (Ch12_r03.wsgi_app request st1) = fst (Ch12_r03.wsgi_app request st2) /\
  same_run (snd (Ch12_r03.wsgi_app request st1))
           (snd (Ch12_r03.wsgi_app request st2)).
Proof.
  intros Hsame.
  pose proof (same_run_with_deck _ _ Hsame) as Hw.
  unfold Ch12_r03.wsgi_app. rewrite !full_dispatch_r03.
  destruct (check_json_cases request st1) as [Hc1|Hc1];
    destruct (check_json_cases request st2) as [Hc2|Hc2];
    rewrite Hc1, Hc2;
    try (exfalso; revert Hc1 Hc2; unfold Ch12_r03.check_json;
         repeat match goal with
                | |- context [if ?b then _ else _] => destruct b
                end; done);
    [|done].
  rewrite !dispatch_r03.
  repeat case_decide; try done;
    try (destruct (bool_decide _); [done|]; destruct (served _ _); done).
  - rewrite !deal_eq.
    destruct (Ch12_r03.cards_arg request) as [n|]; [|done].
    destruct (valid_size n); [|done]. unfold bind.
    destruct (same_run_deck_deal TheDeck (Z.to_nat n) _ _ Hw (with_deck_some st1))
      as [Hr Hs].
    destruct (deck_deal _ _ (with_deck st1)) as [r1 st1'].
    destruct (deck_deal _ _ (with_deck st2)) as [r2 st2'].
    simpl in Hr, Hs. subst r2. by destruct r1 as [?|[]].
  - rewrite !multi_hand_eq.
    destruct (valid_sizes _); [|done]. unfold bind.
    destruct (same_run_for_each (Ch12_r03.hand_sizes_arg request) _ _ Hw
                (with_deck_some st1)) as [Hr Hs].
    destruct (for_each _ _ (with_deck st1)) as [r1 st1'].
    destruct (for_each _ _ (with_deck st2)) as [r2 st2'].
    simpl in Hr, Hs. subst r2. by destruct r1 as [?|[]].
Qed.

Lemma same_run_serve requests st1 st2 :
  same_run st1 st2 ->
  fst (Ch12_r03.serve requests st1) = fst (Ch12_r03.serve requests st2) /\
  same_run (snd (Ch12_r03.serve requests st1)) (snd (Ch12_r03.serve requests st2)).
Proof.
  revert st1 st2. induction requests as [|r rs IH]; intros st1 st2 Hsame; [done|].
  rewrite !serve_cons. simpl.
  destruct (same_run_wsgi_app r _ _ Hsame) as [Hr Hs].
  destruct (IH _ _ Hs) as [Hr' Hs']. split; [|done]. by rewrite Hr, Hr'.
Qed.

(** C6.  Two processes started with the same text in [DEAL_APP_SEED]
    and sent the same requests give the same responses, card for card,
    whatever the entropy of the system each runs on; the decks they hold
    at the end are equal, both being the deck shuffled from that seed less
    the cards dealt, and they have made the same calls. *)
Theorem seeded_runs_agree (seed : string) (e1 e2 : N) (requests : list Request) :
  let run1 := Ch12_r03.serve requests (start (Some seed) e1) in
  let run2 := Ch12_r03.serve requests (start (Some seed) e2) in
  fst run1 = fst run2 /\
  deck (snd run1) = deck (snd run2) /\
  trace (snd run1) = trace (snd run2) /\
  (forall d, deck (snd run1) = Some d ->
     dealt d ++ cards d = shuffle (SeedText seed) standard_cards).
Proof.
  intros run1 run2.
  assert (same_run (start (Some seed) e1) (start (Some seed) e2)) as Hsame
    by done.
  destruct (same_run_serve requests _ _ Hsame) as (Hr & _ & _ & Hd & Ht).
  repeat split; try done.
  intros d Hdeck.
  destruct (inv_serve requests (start (Some seed) e1) (inv_start _ _))
    as [Hinv Hseed].
  fold run1 in Hinv, Hseed. unfold process_inv in Hinv.
  rewrite Hdeck in Hinv. destruct Hinv as (_ & -> & _). by rewrite Hseed.
Qed.

End TwoRuns.

(** * More on the dispatch of the two recipes *)

Section Dispatch.
Context `{Random}.

(** What a dealing view can end in: the 400 of a failed check with the
    process untouched, an answer with status 200, or [DeckExhausted]. *)
Inductive view_outcome (st : Process) : Result Response * Process -> Prop :=
  | view_rejected :
      view_outcome st (Raise (HTTPException BAD_REQUEST), st)
  | view_answered response st' :
      status response = OK -> view_outcome st (Ret response, st')
  | view_exhausted st' :
      view_outcome st (Raise DeckExhausted, st').

Lemma deck_deal_cases r n st :
  deck st <> None ->
  (exists hand st', deck_deal r n st = (Ret hand, st')) \/
  (exists st', deck_deal r n st = (Raise DeckExhausted, st')).
Proof.
  intros Hsome. destruct (deck st) as [d|] eqn:Hd; [|done].
  rewrite (deck_deal_eq _ _ _ _ Hd). case_decide; [left; by eexists _, _|right; by eexists].
Qed.

Lemma deal_outcome request st : view_outcome st (Ch12_r03.deal request st).
Proof.
  rewrite deal_eq.
  destruct (Ch12_r03.cards_arg request) as [n|]; [|constructor].
  destruct (valid_size n); [|constructor]. unfold bind.
  destruct (deck_deal_cases TheDeck (Z.to_nat n) _ (with_deck_some st))
    as [(hand & st' & ->)|(st' & ->)]; by constructor.
Qed.

Lemma multi_hand_outcome request st :
  view_outcome st (Ch12_r03.multi_hand request st).
Proof.
  rewrite multi_hand_eq. destruct (valid_sizes _); [|constructor].
  unfold bind.
  destruct (for_each _ _ _) as [r st'] eqn:Hrun. destruct r as [hands|e].
  - by constructor.
  - rewrite (for_each_deal_exn _ _ _ _ _ (with_deck_deck st) Hrun). constructor.
Qed.

(** The response Flask makes of what a view ended in. *)
Definition respond (r : Result Response * Process) : Response * Process :=
  match r with
  | (Ret response, st') => (response, st')
  | (Raise (HTTPException s), st') => ({| status := s; body := NoBody |}, st')
  | (Raise _, st') => ({| status := INTERNAL_SERVER_ERROR; body := NoBody |}, st')
  end.

Lemma wsgi_app_eq request st :
  Ch12_r03.wsgi_app request st =
    match Ch12_r03.check_json request st with
    | (Ret None, _) =>
        respond (dispatch (Map_match Ch12_r03.url_map (path request)) request st)
    | _ => ({| status := BAD_REQUEST; body := NoBody |}, st)
    end.
Proof.
  unfold Ch12_r03.wsgi_app. rewrite full_dispatch_r03. unfold respond.
  by destruct (check_json_cases request st) as [-> | ->].
Qed.

Lemma wsgi_app_r02_eq request st :
  Ch12_r02.wsgi_app request st =
    match Ch12_r02.check_json request st with
    | (Ret None, _) =>
        respond (dispatch (Map_match Ch12_r02.url_map (path request)) request st)
    | _ => ({| status := BAD_REQUEST; body := NoBody |}, st)
    end.
Proof.
  unfold Ch12_r02.wsgi_app, Ch12_r02.full_dispatch_request, bind, respond.
  rewrite route_r02, check_json_r02.
  by destruct (_ || _).
Qed.

(** X4.  A request that recipe 3 answers with 400 or 404 has no effect:
    whether the gate, the check of a view or the routing refused it, the
    process is left exactly as it was, so later requests are served as if
    it had never been sent. *)
Theorem refused_request_no_effect (request : Request) (st : Process) :
  status (fst (Ch12_r03.wsgi_app request st)) = BAD_REQUEST \/
  status (fst (Ch12_r03.wsgi_app request st)) = NOT_FOUND ->
  snd (Ch12_r03.wsgi_app request st) = st /\
  forall requests,
    Ch12_r03.serve (request :: requests) st
    = (fst (Ch12_r03.wsgi_app request st) :: fst (Ch12_r03.serve requests st),
       snd (Ch12_r03.serve requests st)).
Proof.
  intros Hstatus.
  assert (Hst : snd (Ch12_r03.wsgi_app request st) = st).
  { revert Hstatus. rewrite wsgi_app_eq.
    destruct (check_json_cases request st) as [-> | ->]; [|done].
    rewrite dispatch_r03.
    repeat (case_decide; [try (by intros [?|?])|]).
    - destruct (deal_outcome request st) as [|response st' Hok|st']; simpl;
        [done| |]; intros [Hs|Hs]; try done; by rewrite Hok in Hs.
    - destruct (multi_hand_outcome request st) as [|response st' Hok|st']; simpl;
        [done| |]; intros [Hs|Hs]; try done; by rewrite Hok in Hs.
    - destruct (bool_decide _); [done|]. by destruct (served _ _). }
  split; [done|]. intros requests. by rewrite serve_cons, Hst.
Qed.

(** X5.  Recipe 3 answers with 200, 308, 400, 404 or 500 and nothing
    else.  It answers 308 exactly when the gate lets the request through
    and the path is not served as it is but is served once its slashes
    are merged; 404 exactly when the gate lets the request through and
    the path either asks the static route for a file or is not served
    even with its slashes merged; and 500 only to a dealing request whose
    sizes passed the check. *)
Theorem status_codes (request : Request) (st : Process) :
  let s := status (fst (Ch12_r03.wsgi_app request st)) in
  let p := path request in
  let passed := Ch12_r03.check_json request st = (Ret None, st) in
  (s = OK \/ s = PERMANENT_REDIRECT \/ s = BAD_REQUEST \/ s = NOT_FOUND \/
   s = INTERNAL_SERVER_ERROR) /\
  (s = PERMANENT_REDIRECT <->
   passed /\ served routes_r03 p = false /\
   served routes_r03 (merge_slashes p) = true) /\
  (s = NOT_FOUND <->
   passed /\
   (is_Some (static_file p) \/
    served routes_r03 p = false /\ served routes_r03 (merge_slashes p) = false)) /\
  (s = INTERNAL_SERVER_ERROR ->
   (p = "/dealer/hand" /\
    exists n, Ch12_r03.cards_arg request = Some n /\ 1 <= n < 53) \/
   (p = "/dealer/hands" /\
    Forall (fun n => 1 <= n < 53) (Ch12_r03.hand_sizes_arg request) /\
    Py.sum (Ch12_r03.hand_sizes_arg request) < 53)).
Proof.
  intros s p passed. subst s p passed. rewrite wsgi_app_eq.
  destruct (check_json_cases request st) as [Hc|Hc]; rewrite Hc.
  2:{ split; [tauto|]. repeat split; try done; by intros [[=] _]. }
  rewrite dispatch_r03.
  assert (Hroute : forall q, q ∈ routes_r03 ->
            served routes_r03 q = true /\ ~ is_Some (static_file q)).
  { intros q Hq. unfold routes_r03 in Hq.
    rewrite !elem_of_cons, elem_of_nil in Hq.
    destruct Hq as [->|[->|[->|[->|[]]]]]; (split; [done|by intros [? ?]]). }
  assert (Hans : forall r : Response * Process,
            status (fst r) = OK \/ status (fst r) = BAD_REQUEST \/
            status (fst r) = INTERNAL_SERVER_ERROR ->
            served routes_r03 (path request) = true ->
            ~ is_Some (static_file (path request)) ->
            (status (fst r) = OK \/ status (fst r) = PERMANENT_REDIRECT \/
             status (fst r) = BAD_REQUEST \/ status (fst r) = NOT_FOUND \/
             status (fst r) = INTERNAL_SERVER_ERROR) /\
            (status (fst r) = PERMANENT_REDIRECT <->
             (Ret None, st) = (@Ret (option Response) None, st) /\
             served routes_r03 (path request) = false /\
             served routes_r03 (merge_slashes (path request)) = true) /\
            (status (fst r) = NOT_FOUND <->
             (Ret None, st) = (@Ret (option Response) None, st) /\
             (is_Some (static_file (path request)) \/
              served routes_r03 (path request) = false /\
              served routes_r03 (merge_slashes (path request)) = false))).
  { intros r Hr Hserved Hstatic. rewrite Hserved.
    split; [tauto|]. split.
    - split; [intros Hs; rewrite Hs in Hr; by destruct Hr as [?|[?|?]]
             |by intros (_ & ? & _)].
    - split; [intros Hs; rewrite Hs in Hr; by destruct Hr as [?|[?|?]]
             |intros (_ & [?|[? _]]); done]. }
  case_decide as Hp1.
  { destruct (Hroute (path request)) as [Hs Hn];
      [rewrite Hp1; unfold routes_r03; repeat constructor|].
    destruct (Hans (respond (Ch12_r03.swagger2 request st))) as (? & ? & ?);
      [by left|done|done|]. repeat split; try tauto. done. }
  case_decide as Hp2.
  { destruct (Hroute (path request)) as [Hs Hn];
      [rewrite Hp2; unfold routes_r03; repeat constructor|].
    destruct (Hans (respond (Ch12_r03.swagger3 request st))) as (? & ? & ?);
      [by left|done|done|]. repeat split; try tauto. done. }
  case_decide as Hp3.
  { destruct (Hroute (path request)) as [Hs Hn];
      [rewrite Hp3; unfold routes_r03; repeat constructor|].
    assert (Hdeal : status (fst (respond (Ch12_r03.deal request st))) = OK \/
                    status (fst (respond (Ch12_r03.deal request st))) = BAD_REQUEST \/
                    status (fst (respond (Ch12_r03.deal request st)))
                    = INTERNAL_SERVER_ERROR).
    { destruct (deal_outcome request st) as [|response st' Hok|st']; simpl; tauto. }
    destruct (Hans _ Hdeal Hs Hn) as (? & ? & ?).
    repeat split; try tauto.
    intros H500. left. split; [done|]. revert H500. rewrite deal_eq.
    destruct (Ch12_r03.cards_arg request) as [n|] eqn:Hn'; [|done].
    destruct (valid_size n) eqn:Hv; [|done].
    apply valid_size_spec in Hv. intros _. by exists n. }
  case_decide as Hp4.
  { destruct (Hroute (path request)) as [Hs Hn];
      [rewrite Hp4; unfold routes_r03; repeat constructor|].
    assert (Hdeal : status (fst (respond (Ch12_r03.multi_hand request st))) = OK \/
                    status (fst (respond (Ch12_r03.multi_hand request st)))
                    = BAD_REQUEST \/
                    status (fst (respond (Ch12_r03.multi_hand request st)))
                    = INTERNAL_SERVER_ERROR).
    { destruct (multi_hand_outcome request st) as [|response st' Hok|st']; simpl; tauto. }
    destruct (Hans _ Hdeal Hs Hn) as (? & ? & ?).
    repeat split; try tauto.
    intros H500. right. split; [done|]. revert H500. rewrite multi_hand_eq.
    destruct (valid_sizes (Ch12_r03.hand_sizes_arg request)) eqn:Hv; [|done].
    by apply valid_sizes_spec in Hv. }
  assert (bool_decide (path request ∈ routes_r03) = false) as Hnot.
  { apply bool_decide_eq_false. unfold routes_r03.
    rewrite !elem_of_cons, elem_of_nil. tauto. }
  assert (served routes_r03 (path request)
          = bool_decide (is_Some (static_file (path request)))) as ->
    by (unfold served; by rewrite Hnot).
  destruct (bool_decide (is_Some (static_file (path request)))) eqn:Hs.
  - apply bool_decide_eq_true in Hs. simpl.
    split; [tauto|]. split; [split; [done|by intros (_ & ? & _)]|].
    split; [|done]. split; [by intros _; split; [|left]|done].
  - apply bool_decide_eq_false in Hs.
    destruct (served routes_r03 (merge_slashes (path request))); simpl.
    + split; [tauto|]. split; [done|]. split; [|done].
      split; [done|]. intros (_ & [?|[_ ?]]); done.
    + split; [tauto|]. split; [split; [done|by intros (_ & _ & ?)]|].
      split; [|done]. split; [|done]. intros _. split; [done|]. by right.
Qed.

(** ** One request for several hands, or several requests for one *)

Lemma with_deck_id st : deck st <> None -> with_deck st = st.
Proof. unfold with_deck. by destruct (deck st). Qed.

Lemma deal_with_deck request st :
  Ch12_r03.deal request (with_deck st) = Ch12_r03.deal request st \/
  Ch12_r03.deal request st = (Raise (HTTPException BAD_REQUEST), st).
Proof.
  rewrite !deal_eq. destruct (Ch12_r03.cards_arg request) as [n|]; [|by right].
  destruct (valid_size n); [|by right]. left. by rewrite with_deck_idem.
Qed.

(** X6.  With a single [cards] value that [int] accepts, [/dealer/hand]
    and [/dealer/hands] do the same to the process and hand out the same
    cards: the one as a list of cards, the other as that list in the one
    entry of index 0; and they fail alike. *)
Theorem one_size_hand_and_hands (r1 r2 : Request) (s : string) (n : Z)
    (st : Process) :
  get "cards" (args r1) = Some s ->
  getlist "cards" (args r2) = [s] ->
  Py.int s = Some n ->
  snd (Ch12_r03.deal r1 st) = snd (Ch12_r03.multi_hand r2 st) /\
  match fst (Ch12_r03.deal r1 st) with
  | Ret response =>
      exists cs, response = jsonify (JsonCards cs) /\
        fst (Ch12_r03.multi_hand r2 st) = Ret (jsonify (JsonHands [(0%nat, cs)]))
  | Raise e => fst (Ch12_r03.multi_hand r2 st) = Raise e
  end.
Proof.
  intros Hget Hlist Hint.
  assert (Ch12_r03.cards_arg r1 = Some n) as Hc
    by (unfold Ch12_r03.cards_arg; by rewrite Hget).
  assert (Ch12_r03.hand_sizes_arg r2 = [n]) as Hs.
  { unfold Ch12_r03.hand_sizes_arg, getlist_type. rewrite Hlist. simpl.
    by rewrite Hint. }
  rewrite deal_eq, multi_hand_eq, Hc, Hs.
  assert (valid_sizes [n] = valid_size n) as ->.
  { unfold valid_sizes. cbn [forallb]. rewrite andb_true_r.
    change (Py.sum [n]) with (0 + n). unfold valid_size.
    destruct (1 <=? n); [|done]. simpl. destruct (n <? 53) eqn:E; [|done].
    by rewrite Z.add_0_l, E. }
  destruct (valid_size n); [|done].
  cbn [for_each]. unfold bind, ret.
  by destruct (deck_deal TheDeck (Z.to_nat n) (with_deck st)) as [[hand|e] st'];
    [split; [done|]; eexists|].
Qed.

Lemma for_each_cons {A B} (f : A -> M B) (x : A) (xs : list A) (st : Process) :
  for_each f (x :: xs) st =
    match f x st with
    | (Ret y, st1) =>
        match for_each f xs st1 with
        | (Ret ys, st2) => (Ret (y :: ys), st2)
        | (Raise e, st2) => (Raise e, st2)
        end
    | (Raise e, st1) => (Raise e, st1)
    end.
Proof.
  cbn [for_each]. unfold bind, ret.
  destruct (f x st) as [[y|e] st1]; [|done].
  by destruct (for_each f xs st1) as [[ys|e] st2].
Qed.

Lemma for_each_deal_views (rs : list Request) (ns : list Z) st hands st' :
  Forall2 (fun r n => Ch12_r03.cards_arg r = Some n /\ valid_size n = true) rs ns ->
  deck st <> None ->
  for_each (fun n => deck_deal TheDeck (Z.to_nat n)) ns st = (Ret hands, st') ->
  for_each Ch12_r03.deal rs st
  = (Ret ((fun hand => jsonify (JsonCards hand)) <$> hands), st').
Proof.
  intros Hrs. revert st hands st'.
  induction Hrs as [|r n rs ns [Hc Hv] Hrs IH]; intros st hands st' Hsome.
  - by intros [= <- <-].
  - rewrite !for_each_cons.
    rewrite deal_eq, Hc, Hv, (with_deck_id st Hsome). unfold bind, ret.
    pose proof (extends_deck _ _ (deck_deal_extends TheDeck (Z.to_nat n) st Hsome)
                  Hsome) as Hsome'.
    destruct (deck_deal TheDeck (Z.to_nat n) st) as [r1 st1].
    destruct r1 as [hand|e]; [|done]. simpl in Hsome'.
    destruct (for_each _ ns st1) as [r2 st2] eqn:Hrun.
    destruct r2 as [hands'|e]; [|done].
    rewrite (IH st1 hands' st2 Hsome' Hrun).
    by intros [= <- <-].
Qed.

Lemma omap_int_views (rs : list Request) (ss : list string) :
  Forall2 (fun ri s => get "cards" (args ri) = Some s /\ is_Some (Py.int s)) rs ss ->
  Forall2 (fun ri n => Ch12_r03.cards_arg ri = Some n) rs (omap Py.int ss) /\
  length (omap Py.int ss) = length ss.
Proof.
  induction 1 as [|ri s rs ss [Hget [n Hn]] Hrs [IH1 IH2]]; [done|].
  assert (omap Py.int (s :: ss) = n :: omap Py.int ss) as ->
    by (simpl; by rewrite Hn).
  split.
  - constructor; [|done]. unfold Ch12_r03.cards_arg. by rewrite Hget.
  - simpl. by f_equal.
Qed.

(** X7.  One request for several hands gives what single requests give.
    If [/dealer/hands] is sent sizes that [int] accepts and is answered,
    then [/dealer/hand] requests for the same sizes, served one after the
    other from the same state, are answered with the same hands in the
    same order and leave the process in the same state. *)
Theorem hands_as_single_requests (r : Request) (rs : list Request)
    (ss : list string) (response : Response) (st st' : Process) :
  getlist "cards" (args r) = ss ->
  Forall2 (fun ri s => get "cards" (args ri) = Some s /\ is_Some (Py.int s)) rs ss ->
  ss <> [] ->
  Ch12_r03.multi_hand r st = (Ret response, st') ->
  exists hs, response = jsonify (JsonHands hs) /\
    for_each Ch12_r03.deal rs st
    = (Ret ((fun h => jsonify (JsonCards h.2)) <$> hs), st').
Proof.
  intros Hlist Hrs Hne. rewrite multi_hand_eq.
  destruct (valid_sizes (Ch12_r03.hand_sizes_arg r)) eqn:Hv; [|done].
  unfold bind. destruct (for_each _ _ _) as [r0 st0] eqn:Hrun.
  destruct r0 as [hands|e]; [|done]. intros [= <- <-].
  exists (Py.enumerate hands). split; [done|].
  assert (Hviews : Forall2 (fun ri n => Ch12_r03.cards_arg ri = Some n)
                     rs (Ch12_r03.hand_sizes_arg r) /\ rs <> []).
  { unfold Ch12_r03.hand_sizes_arg, getlist_type. rewrite Hlist.
    destruct (omap_int_views rs ss Hrs) as [Hf Hlen]. split.
    - case_decide as Hz; [|done]. rewrite Hlen in Hz. by destruct ss.
    - intros ->. apply Forall2_nil_inv_l in Hrs. done. }
  destruct Hviews as [Hviews Hrsne].
  apply valid_sizes_spec in Hv as [Hin _].
  assert (Hviews' : Forall2 (fun ri n => Ch12_r03.cards_arg ri = Some n
                                         /\ valid_size n = true)
                      rs (Ch12_r03.hand_sizes_arg r)).
  { revert Hviews Hin. generalize (Ch12_r03.hand_sizes_arg r). clear.
    intros ns0 Hviews.
    induction Hviews as [|ri n rs ns Hc Hrest IH]; intros Hin; [constructor|].
    apply Forall_cons in Hin as [Hn Hin].
    constructor; [|by apply IH]. split; [done|]. by apply valid_size_spec. }
  pose proof (for_each_deal_views rs _ _ _ _ Hviews' (with_deck_some st) Hrun) as Hsingle.
  assert (for_each Ch12_r03.deal rs st = for_each Ch12_r03.deal rs (with_deck st)) as ->.
  { destruct Hviews' as [|r1 n rs' ns' [Hc Hv1] _]; [done|].
    rewrite !for_each_cons.
    by rewrite !deal_eq, Hc, Hv1, with_deck_idem. }
  rewrite Hsingle. f_equal. f_equal. unfold Py.enumerate.
  apply list_eq. intros i.
  rewrite !list_lookup_fmap, list_lookup_imap. by destruct (hands !! i).
Qed.

Lemma merge_slashes_step (a b : ascii) (s : string) :
  Ascii.eqb a "/" && Ascii.eqb b "/" = false ->
  merge_slashes (String a (String b s)) = String a (merge_slashes (String b s)).
Proof. intros Hab. cbn [merge_slashes]. by rewrite Hab. Qed.

Lemma merge_slashes_static (p : string) :
  is_Some (static_file p) -> exists t, merge_slashes p = "/static/" +:+ t.
Proof.
  intros [filename Hf]. apply static_file_spec in Hf as [-> Hc].
  destruct filename as [|c filename]; [done|].
  cbn [path_converter] in Hc. apply andb_true_iff in Hc as [Hc _].
  apply negb_true_iff in Hc.
  exists (merge_slashes (String c filename)).
  assert (forall a s t, String a s +:+ t = String a (s +:+ t)) as Hcons by done.
  assert (forall t, "" +:+ t = t) as Hnil by done.
  rewrite !Hcons, !Hnil.
  by rewrite !merge_slashes_step by (first [done | by rewrite Hc]).
Qed.

(** X8.  Recipe 3 serves whatever recipe 2 serves.  Let the new paths be
    the three that only recipe 3 routes.  On a path that is not new, and
    that does not become one when its slashes are merged, the two
    applications give the same answer and leave the same state.  On a new
    path recipe 2 answers 404 when the request indicates JSON and 400
    when it does not (its gate has no exempt path), and changes nothing.
    On a path that becomes new when its slashes are merged, a request
    that indicates JSON is redirected by recipe 3 and not found by
    recipe 2. *)
Theorem recipe3_extends_recipe2 (request : Request) (st : Process) :
  let p := path request in
  let new := ["/dealer/hands"; "/dealer/openapi.yaml"; "/dealer/openapi.json"] in
  let indicated :=
    Py.contains "json" (default "*/*" (header "Accept" (headers request)))
    || String.eqb "json" (default "html" (get "$format" (args request))) in
  (p ∉ new -> merge_slashes p ∉ new ->
   Ch12_r02.wsgi_app request st = Ch12_r03.wsgi_app request st) /\
  (p ∈ new ->
   Ch12_r02.wsgi_app request st
   = ({| status := if indicated then NOT_FOUND else BAD_REQUEST; body := NoBody |},
      st)) /\
  (p ∉ new -> merge_slashes p ∈ new ->
   Ch12_r02.wsgi_app request st
   = ({| status := if indicated then NOT_FOUND else BAD_REQUEST; body := NoBody |},
      st) /\
   Ch12_r03.wsgi_app request st
   = ({| status := if indicated then PERMANENT_REDIRECT else BAD_REQUEST;
         body := NoBody |}, st)).
Proof.
  intros p new indicated.
  assert (Hgate : p ∉ new ->
            Ch12_r03.check_json request st = Ch12_r02.check_json request st).
  { intros Hp. apply check_json_r03; intros Heq; apply Hp; fold p in Heq;
      rewrite Heq; unfold new; repeat constructor. }
  assert (Hnew : forall q, q ∈ new ->
            q <> "/dealer/hand" /\ static_file q = None /\
            served routes_r03 q = true /\ served routes_r02 q = false).
  { intros q Hq. unfold new in Hq. rewrite !elem_of_cons, elem_of_nil in Hq.
    destruct Hq as [->|[->|[->|[]]]]; done. }
  assert (Hold : forall q, q ∉ new -> served routes_r03 q = served routes_r02 q).
  { intros q Hq. unfold served, routes_r03, routes_r02. f_equal.
    apply bool_decide_ext. unfold new in Hq.
    rewrite !elem_of_cons, elem_of_nil in *. tauto. }
  assert (Hsplit : forall q, q ∉ new ->
            q <> "/dealer/openapi.yaml" /\ q <> "/dealer/openapi.json" /\
            q <> "/dealer/hands").
  { intros q Hq. unfold new in Hq. rewrite !elem_of_cons, elem_of_nil in Hq.
    tauto. }
  split; [|split].
  - intros Hp Hm. rewrite wsgi_app_eq, wsgi_app_r02_eq, (Hgate Hp).
    rewrite check_json_r02. fold indicated. destruct indicated; [|done].
    rewrite dispatch_r03, dispatch_r02. fold p.
    destruct (Hsplit p Hp) as (H1 & H2 & H3).
    rewrite (decide_False (P := p = "/dealer/openapi.yaml")) by done.
    rewrite (decide_False (P := p = "/dealer/openapi.json")) by done.
    rewrite (decide_False (P := p = "/dealer/hands")) by done.
    by rewrite (Hold _ Hm).
  - intros Hp. destruct (Hnew p Hp) as (Hhand & Hstatic & _ & Hserved).
    rewrite wsgi_app_r02_eq, check_json_r02. fold indicated.
    destruct indicated; [|done].
    rewrite dispatch_r02. fold p. rewrite decide_False by done.
    rewrite Hstatic. rewrite bool_decide_eq_false_2 by (by intros [? ?]).
    assert (merge_slashes p = p) as ->.
    { unfold new in Hp. rewrite !elem_of_cons, elem_of_nil in Hp.
      destruct Hp as [->|[->|[->|[]]]]; done. }
    by rewrite Hserved.
  - intros Hp Hm. destruct (Hnew _ Hm) as (Hhand & Hstatic & Hs3 & Hs2).
    destruct (Hsplit p Hp) as (H1 & H2 & H3).
    assert (p <> "/dealer/hand") as H4.
    { intros Heq. rewrite Heq in Hm. by destruct (Hnew _ Hm) as [? _]. }
    assert (~ is_Some (static_file p)) as Hns.
    { intros Hsome. destruct (merge_slashes_static p Hsome) as [t Ht].
      rewrite Ht in Hm. unfold new in Hm.
      rewrite !elem_of_cons, elem_of_nil in Hm.
      destruct Hm as [Hm|[Hm|[Hm|[]]]]; discriminate Hm. }
    rewrite wsgi_app_eq, wsgi_app_r02_eq, (Hgate Hp), check_json_r02.
    fold indicated. destruct indicated; [|done].
    rewrite dispatch_r03, dispatch_r02. fold p.
    rewrite (decide_False (P := p = "/dealer/openapi.yaml")) by done.
    rewrite (decide_False (P := p = "/dealer/openapi.json")) by done.
    rewrite (decide_False (P := p = "/dealer/hands")) by done.
    rewrite !(decide_False (P := p = "/dealer/hand")) by done.
    rewrite !bool_decide_eq_false_2 by done.
    by rewrite Hs3, Hs2.
Qed.

Lemma for_each_length {A B} (f : A -> M B) (xs : list A) (st st' : Process)
    (ys : list B) :
  for_each f xs st = (Ret ys, st') -> length ys = length xs.
Proof.
  revert st ys. induction xs as [|x xs IH]; intros st ys.
  - by intros [= <- _].
  - rewrite for_each_cons. destruct (f x st) as [[y|e] st1]; [|done].
    destruct (for_each f xs st1) as [[ys'|e] st2] eqn:Hrun; [|done].
    intros [= <- <-]. simpl. f_equal. by eapply IH.
Qed.

Lemma sum_at_least_length (sizes : list Z) :
  Forall (fun n => 1 <= n < 53) sizes -> Z.of_nat (length sizes) <= Py.sum sizes.
Proof.
  induction 1 as [|n sizes Hn Hsizes IH]; [done|].
  rewrite sum_cons. cbn [length]. lia.
Qed.

(** X11.  How many hands [/dealer/hands] can give.  Every answer of the
    view holds one entry per requested size, at least one and at most 52
    of them, numbered 0, 1, 2, ... in order: a request without sizes gets
    the four default hands, and 53 sizes or more never pass the check. *)
Theorem multi_hand_count (request : Request) (response : Response)
    (st st' : Process) :
  Ch12_r03.multi_hand request st = (Ret response, st') ->
  exists hs, response = jsonify (JsonHands hs) /\
    length hs = length (Ch12_r03.hand_sizes_arg request) /\
    (1 <= length hs <= 52)%nat /\
    hs.*1 = seq 0 (length hs).
Proof.
  rewrite multi_hand_eq.
  destruct (valid_sizes (Ch12_r03.hand_sizes_arg request)) eqn:Hv; [|done].
  apply valid_sizes_spec in Hv as [Hin Hsum]. unfold bind, ret.
  destruct (for_each _ _ _) as [[hands|e] st0] eqn:Hrun; [|done].
  intros [= <- _]. exists (Py.enumerate hands). split; [done|].
  apply for_each_length in Hrun.
  assert (length (Py.enumerate hands) = length hands) as Hlen
    by (unfold Py.enumerate; by rewrite length_imap).
  rewrite Hlen, Hrun. split; [done|]. split.
  - pose proof (sum_at_least_length _ Hin) as Hle. split; [|lia].
    unfold Ch12_r03.hand_sizes_arg. case_decide as Hz; [simpl; lia|]. lia.
  - rewrite <- Hrun. unfold Py.enumerate.
    rewrite fmap_imap, (imap_ext _ (fun j _ => id j)) by done.
    by rewrite imap_seq_0, list_fmap_id.
Qed.

End Dispatch.

(** * The model run on sample requests *)

Module Run.
Import Sample.

Definition request (p : string) (a : MultiDict) : Request :=
  {| PATH_INFO := p; headers := [("Accept", "application/json")]; args := a |}.

(** A process seeded with [42] that has served [/dealer/hand?cards=5]. *)
Definition after_one_hand : Process :=
  snd (Ch12_r03.serve [request "/dealer/hand" [("cards", "5")]] (start (Some "42") 7)).

(** The same process after [/dealer/hands] with the default sizes: all 52
    cards are dealt. *)
Definition after_four_hands : Process :=
  snd (Ch12_r03.serve [request "/dealer/hands" []] (start (Some "42") 7)).

End Run.

Import Sample.

Example after_one_hand_remaining :
  (length ∘ cards <$> deck Run.after_one_hand) = Some 47%nat.
Proof. reflexivity. Qed.

Example run_hand_0 :
  status (fst (Ch12_r03.wsgi_app (Run.request "/dealer/hand" [("cards", "0")])
                                 (start None 0))) = 400.
Proof. reflexivity. Qed.

Example run_hand_53 :
  status (fst (Ch12_r03.wsgi_app (Run.request "/dealer/hand" [("cards", "53")])
                                 (start None 0))) = 400.
Proof. reflexivity. Qed.

Example run_hand_52_twice :
  status <$> fst (Ch12_r03.serve [Run.request "/dealer/hand" [("cards", "52")];
                                  Run.request "/dealer/hand" [("cards", "1")]]
                                 (start None 0)) = [200; 500].
Proof. reflexivity. Qed.

Example run_hands_53 :
  status (fst (Ch12_r03.wsgi_app
                 (Run.request "/dealer/hands" [("cards", "50"); ("cards", "3")])
                 (start None 0))) = 400.
Proof. reflexivity. Qed.

Example run_no_accept :
  Ch12_r03.wsgi_app {| PATH_INFO := "/dealer/hand"; headers := []; args := [("cards", "5")] |}
                    Run.after_one_hand
  = ({| status := 400; body := NoBody |}, Run.after_one_hand).
Proof. reflexivity. Qed.

(** A size that [int] refuses: [/dealer/hand?cards=%1C5] is answered 400,
    while [/dealer/hands?cards=%1C99] loses the value and deals the four
    default hands. *)
Example run_hand_separator :
  Ch12_r03.wsgi_app (Run.request "/dealer/hand" [("cards", Py.of_bytes [28; 53]%N)])
                    (start None 0)
  = ({| status := 400; body := NoBody |}, start None 0).
Proof. reflexivity. Qed.

Example run_hands_separator :
  let r := Ch12_r03.wsgi_app
             (Run.request "/dealer/hands" [("cards", Py.of_bytes [28; 57; 57]%N)])
             (start None 0) in
  status (fst r) = 200 /\ (length ∘ cards <$> deck (snd r)) = Some 0%nat.
Proof. split; reflexivity. Qed.

(** The size may be written with digits of another script. *)
Example run_hand_arabic :
  let r := Ch12_r03.wsgi_app
             (Run.request "/dealer/hand" [("cards", Py.of_bytes [217; 165]%N)])
             (start None 0) in
  status (fst r) = 200 /\ (length ∘ cards <$> deck (snd r)) = Some 47%nat.
Proof. split; reflexivity. Qed.

(** The leading slashes of the URL do not count, for the gate as for the
    routing. *)
Example run_leading_slashes :
  status (fst (Ch12_r03.wsgi_app
                 {| PATH_INFO := "//dealer/openapi.json"; headers := []; args := [] |}
                 (start None 0))) = 200.
Proof. reflexivity. Qed.

(** Without a seed the deck depends on the entropy of the system. *)
Example unseeded_runs_differ :
  fst (Ch12_r03.serve [Run.request "/dealer/hand" []] (start None 1))
  <> fst (Ch12_r03.serve [Run.request "/dealer/hand" []] (start None 2)).
Proof. vm_compute. discriminate. Qed.

Example after_four_hands_remaining :
  (length ∘ cards <$> deck Run.after_four_hands) = Some 0%nat.
Proof. reflexivity. Qed.


(** ** The theorems at sample inputs *)

Lemma hand_rejected_iff_witness :
  fst (Ch12_r03.deal (Run.request "/dealer/hand" [("cards", "53")])
                     Run.after_one_hand)
  = Raise (HTTPException BAD_REQUEST).
Proof.
  apply (proj1 (hand_rejected_iff (Run.request "/dealer/hand" [("cards", "53")])
                                  Run.after_one_hand)).
  right. exists 53. split; [reflexivity | lia].
Defined.

Lemma multi_hand_sizes_witness :
  Ch12_r03.hand_sizes_arg (Run.request "/dealer/hands" []) = [13; 13; 13; 13].
Proof.
  apply (proj1 (multi_hand_sizes (Run.request "/dealer/hands" []) (start None 0))).
  reflexivity.
Defined.

Lemma multi_hand_rejected_untouched_witness :
  Ch12_r03.multi_hand
    (Run.request "/dealer/hands" [("cards", "50"); ("cards", "3")])
    Run.after_one_hand
  = (Raise (HTTPException BAD_REQUEST), Run.after_one_hand).
Proof.
  apply (multi_hand_rejected_untouched
           (Run.request "/dealer/hands" [("cards", "50"); ("cards", "3")])
           Run.after_one_hand).
  right. change (53 <= 53). lia.
Defined.

Lemma gate_json_only_witness :
  Ch12_r03.wsgi_app
    {| PATH_INFO := "/dealer/hands"; headers := [("Accept", "text/html")]; args := [] |}
    Run.after_one_hand
  = ({| status := BAD_REQUEST; body := NoBody |}, Run.after_one_hand).
Proof.
  destruct (gate_json_only
              {| PATH_INFO := "/dealer/hands"; headers := [("Accept", "text/html")];
                 args := [] |}
              Run.after_one_hand) as (_ & Hrej & _).
  apply Hrej; [by right|]. intros [Hc|Hf]; discriminate.
Defined.

Lemma accept_test_is_substring_witness :
  Ch12_r02.check_json
    {| PATH_INFO := "/dealer/hand"; headers := [("accept", "notjson")]; args := [] |}
    (start None 0)
  = (Ret None, start None 0).
Proof.
  destruct (accept_test_is_substring
              {| PATH_INFO := "/dealer/hand"; headers := [("accept", "notjson")];
                 args := [] |}
              (start None 0)) as (_ & _ & _ & Hpass).
  apply (Hpass "not" ""). reflexivity.
Defined.

Lemma seeded_runs_agree_witness :
  fst (Ch12_r03.serve [Run.request "/dealer/hands" [];
                       Run.request "/dealer/hand" [("cards", "1")]]
                      (start (Some "42") 1))
  = fst (Ch12_r03.serve [Run.request "/dealer/hands" [];
                         Run.request "/dealer/hand" [("cards", "1")]]
                        (start (Some "42") 2)).
Proof.
  apply (seeded_runs_agree "42" 1 2
           [Run.request "/dealer/hands" [];
            Run.request "/dealer/hand" [("cards", "1")]]).
Defined.

Lemma deck_built_once_witness :
  Ch12_r03.get_deck Run.after_one_hand = (Ret TheDeck, Run.after_one_hand).
Proof.
  destruct (deck Run.after_one_hand) as [d|] eqn:Hd; [|by vm_compute in Hd].
  exact (proj1 deck_built_once Run.after_one_hand d Hd).
Defined.


Lemma deal_hands_out_n_witness :
  exists cs,
    Ch12_r03.wsgi_app (Run.request "/dealer/hand" [("cards", "3")]) Run.after_one_hand
    = (jsonify (JsonCards cs),
       snd (Ch12_r03.deal (Run.request "/dealer/hand" [("cards", "3")])
                          Run.after_one_hand)) /\
    Z.of_nat (length cs) = 3 /\ NoDup cs /\ cs ⊆ standard_cards.
Proof.
  destruct deal_hands_out_n as (_ & _ & _ & _ & Hdeal & _).
  destruct (Hdeal (Some "42") 7%N [Run.request "/dealer/hand" [("cards", "5")]]
              (Run.request "/dealer/hand" [("cards", "3")]) 3)
    as (cs & _ & _ & Hlen & Hnd & Hsub & _ & _ & _ & Hans).
  - reflexivity.
  - lia.
  - apply Nat.leb_le. by vm_compute.
  - exists cs. split; [|done]. apply Hans; reflexivity.
Defined.


(** * The event counters of Chapter 7, recipe 4 *)

(** ** Items of a counter *)

Lemma getitem_setitem (c : Ch07_r04.Counter) (k k' : string) (v : Z) :
  Ch07_r04.getitem (Ch07_r04.setitem c k v) k'
  = if decide (k = k') then v else Ch07_r04.getitem c k'.
Proof.
  induction c as [|[k0 v0] c IH]; simpl.
  - by repeat case_decide.
  - repeat (case_decide; simpl; simplify_eq); try done; by rewrite IH; case_decide.
Qed.

Lemma setitem_keys (c : Ch07_r04.Counter) (k : string) (v : Z) :
  (Ch07_r04.setitem c k v).*1 = if decide (k ∈ c.*1) then c.*1 else c.*1 ++ [k].
Proof.
  induction c as [|[k0 v0] c IH]; cbn [Ch07_r04.setitem].
  - rewrite decide_False; [done|]. apply not_elem_of_nil.
  - rewrite fmap_cons. cbn [fst].
    destruct (decide (k0 = k)) as [->|Hne].
    + rewrite decide_True; [done|]. apply elem_of_cons. by left.
    + rewrite fmap_cons, IH. cbn [fst].
      destruct (decide (k ∈ c.*1)) as [Hin|Hnin].
      * rewrite decide_True; [done|]. apply elem_of_cons. by right.
      * rewrite decide_False; [done|]. rewrite elem_of_cons. by intros [->|?].
Qed.

Lemma setitem_NoDup (c : Ch07_r04.Counter) (k : string) (v : Z) :
  NoDup c.*1 -> NoDup (Ch07_r04.setitem c k v).*1.
Proof.
  intros Hnd. rewrite setitem_keys. case_decide as Hin; [done|].
  apply NoDup_app. split; [done|]. split; [|apply NoDup_singleton].
  intros x Hx Hx'. apply list_elem_of_singleton in Hx'. by subst.
Qed.

(** With one item per key, an item is in the counter exactly when its key
    is and its count is the count of that key. *)
Lemma counter_item (c : Ch07_r04.Counter) (k : string) (v : Z) :
  NoDup c.*1 ->
  (k, v) ∈ c <-> k ∈ c.*1 /\ Ch07_r04.getitem c k = v.
Proof.
  induction c as [|[k0 v0] c IH]; intros Hnd.
  - rewrite fmap_nil, !elem_of_nil. split; [done|by intros [? _]].
  - rewrite fmap_cons in *. cbn [fst Ch07_r04.getitem] in *.
    apply NoDup_cons in Hnd as [Hk0 Hnd]. specialize (IH Hnd).
    rewrite !elem_of_cons, IH. case_decide as Heq.
    + subst k0. split.
      * intros [Heq|[Hin _]]; [|done]. injection Heq as ->. split; [by left|done].
      * intros [_ <-]. by left.
    + split.
      * intros [Heq'|[Hin Hv]]; [by injection Heq' as -> _|].
        split; [by right|done].
      * intros [[->|Hin] Hv]; [done|]. right. by split.
Qed.

(** ** [most_common] *)

Lemma insert_by_count_perm x l : Ch07_r04.insert_by_count x l ≡ₚ x :: l.
Proof.
  induction l as [|y l IH]; simpl; [done|].
  destruct (x.2 <? y.2); [|done]. rewrite IH. apply Permutation_swap.
Qed.

Lemma most_common_perm (c : Ch07_r04.Counter) : Ch07_r04.most_common c ≡ₚ c.
Proof.
  induction c as [|x c IH]; simpl; [done|].
  by rewrite insert_by_count_perm, IH.
Qed.

(** Falling count. *)
Definition by_count (a b : string * Z) : Prop := b.2 <= a.2.

Lemma insert_by_count_sorted x l :
  StronglySorted by_count l -> StronglySorted by_count (Ch07_r04.insert_by_count x l).
Proof.
  induction 1 as [|y l Hl IH Hy]; simpl; [by repeat constructor|].
  destruct (x.2 <? y.2) eqn:Hlt.
  - apply Z.ltb_lt in Hlt. constructor; [done|].
    rewrite insert_by_count_perm. constructor; [unfold by_count; lia|done].
  - apply Z.ltb_ge in Hlt. constructor; [by constructor|].
    constructor; [done|].
    eapply Forall_impl; [exact Hy|]. unfold by_count. intros z Hz. lia.
Qed.

Lemma most_common_sorted (c : Ch07_r04.Counter) :
  StronglySorted by_count (Ch07_r04.most_common c).
Proof.
  induction c as [|x c IH]; simpl; [constructor|].
  by apply insert_by_count_sorted.
Qed.

Lemma insert_by_count_stable (v : Z) x l :
  filter (fun kv => kv.2 = v) (Ch07_r04.insert_by_count x l)
  = filter (fun kv => kv.2 = v) (x :: l).
Proof.
  induction l as [|y l IH]; simpl; [done|].
  destruct (x.2 <? y.2) eqn:Hlt; [|done].
  apply Z.ltb_lt in Hlt.
  rewrite (filter_cons _ y), IH, !filter_cons.
  repeat case_decide; try done; lia.
Qed.

Lemma most_common_stable (v : Z) (c : Ch07_r04.Counter) :
  filter (fun kv => kv.2 = v) (Ch07_r04.most_common c)
  = filter (fun kv => kv.2 = v) c.
Proof.
  induction c as [|x c IH]; simpl; [done|].
  by rewrite insert_by_count_stable, !filter_cons, IH.
Qed.

(** ** Sequences of calls *)

(** A call of one of the two counting operations of the module. *)
Inductive Call :=
  | CallCount (key : string) (increment : Z)
  | CallEventCount (self : Ch07_r04.EventCounter) (key : string) (increment : Z).

Definition call (c : Call) (g : Ch07_r04.Globals) : Ch07_r04.Globals :=
  match c with
  | CallCount key increment => Ch07_r04.count key increment g
  | CallEventCount self key increment => Ch07_r04.EventCounter_count self key increment g
  end.

Definition run_calls (cs : list Call) (g : Ch07_r04.Globals) : Ch07_r04.Globals :=
  foldl (fun g c => call c g) g cs.

(** The keys and increments handed to [count], in call order. *)
Definition counted (cs : list Call) : list (string * Z) :=
  omap (fun c => match c with CallCount k i => Some (k, i) | _ => None end) cs.

(** The keys and increments handed to the [count] method of any object. *)
Definition event_counted (cs : list Call) : list (string * Z) :=
  omap (fun c => match c with CallEventCount _ k i => Some (k, i) | _ => None end) cs.

(** The sum of the increments given for [key]. *)
Definition total (key : string) (kis : list (string * Z)) : Z :=
  Py.sum (filter (fun ki => ki.1 = key) kis).*2.

(** The keys of [ks] that are not in [seen], each once, in order of first
    occurrence. *)
Fixpoint first_seen (seen ks : list string) : list string :=
  match ks with
  | [] => []
  | k :: ks' =>
      if decide (k ∈ seen) then first_seen seen ks'
      else k :: first_seen (k :: seen) ks'
  end.

Definition tally (c : Ch07_r04.Counter) (ki : string * Z) : Ch07_r04.Counter :=
  Ch07_r04.setitem c ki.1 (Ch07_r04.getitem c ki.1 + ki.2).

Lemma run_calls_counters (cs : list Call) (g : Ch07_r04.Globals) :
  Ch07_r04._global_counter (run_calls cs g)
    = foldl tally (Ch07_r04._global_counter g) (counted cs) /\
  Ch07_r04.EventCounter__counts (run_calls cs g)
    = foldl tally (Ch07_r04.EventCounter__counts g) (event_counted cs).
Proof.
  revert g. induction cs as [|c cs IH]; intros g; [done|].
  destruct (IH (call c g)) as [IH1 IH2].
  unfold run_calls in *. cbn [foldl]. rewrite IH1, IH2.
  by destruct c.
Qed.

Lemma total_cons (key : string) (ki : string * Z) (kis : list (string * Z)) :
  total key (ki :: kis)
  = (if decide (ki.1 = key) then ki.2 else 0) + total key kis.
Proof.
  unfold total. rewrite filter_cons. case_decide; [|lia].
  by rewrite fmap_cons, sum_cons.
Qed.

Lemma getitem_tallies (c : Ch07_r04.Counter) (kis : list (string * Z)) (k : string) :
  Ch07_r04.getitem (foldl tally c kis) k = Ch07_r04.getitem c k + total k kis.
Proof.
  revert c. induction kis as [|ki kis IH]; intros c.
  - unfold total. simpl. unfold Py.sum. simpl. lia.
  - cbn [foldl]. rewrite IH, total_cons. unfold tally.
    rewrite getitem_setitem. case_decide; [subst; lia|lia].
Qed.

Lemma first_seen_ext (s1 s2 ks : list string) :
  (forall x, x ∈ s1 <-> x ∈ s2) -> first_seen s1 ks = first_seen s2 ks.
Proof.
  revert s1 s2. induction ks as [|k ks IH]; intros s1 s2 Hs; [done|].
  cbn [first_seen]. destruct (decide (k ∈ s1)) as [Hin|Hnin].
  - rewrite decide_True by (by apply Hs). by apply IH.
  - rewrite decide_False by (by rewrite <- Hs). f_equal. apply IH.
    intros x. rewrite !elem_of_cons. by rewrite Hs.
Qed.

Lemma elem_of_first_seen (seen ks : list string) (k : string) :
  k ∈ first_seen seen ks <-> k ∈ ks /\ k ∉ seen.
Proof.
  revert seen. induction ks as [|k0 ks IH]; intros seen; cbn [first_seen].
  - rewrite !elem_of_nil. tauto.
  - case_decide as Hin.
    + rewrite IH, elem_of_cons. split; [tauto|].
      intros [[->|?] ?]; tauto.
    + rewrite !elem_of_cons, IH, elem_of_cons.
      destruct (decide (k = k0)) as [->|Hne]; tauto.
Qed.

Lemma first_seen_NoDup (seen ks : list string) : NoDup (first_seen seen ks).
Proof.
  revert seen. induction ks as [|k0 ks IH]; intros seen; cbn [first_seen].
  - constructor.
  - case_decide; [done|]. constructor; [|done].
    rewrite elem_of_first_seen, elem_of_cons. tauto.
Qed.

Lemma tallies_keys (c : Ch07_r04.Counter) (kis : list (string * Z)) :
  (foldl tally c kis).*1 = c.*1 ++ first_seen c.*1 kis.*1.
Proof.
  revert c. induction kis as [|ki kis IH]; intros c.
  - simpl. by rewrite app_nil_r.
  - cbn [foldl]. rewrite IH, fmap_cons. cbn [first_seen]. unfold tally.
    rewrite setitem_keys. case_decide as Hin; [done|].
    rewrite <- app_assoc. simpl. do 2 f_equal. apply first_seen_ext.
    intros x. rewrite elem_of_app, !elem_of_cons, elem_of_nil. tauto.
Qed.

Lemma tallies_NoDup (c : Ch07_r04.Counter) (kis : list (string * Z)) :
  NoDup c.*1 -> NoDup (foldl tally c kis).*1.
Proof.
  revert c. induction kis as [|ki kis IH]; intros c Hnd; [done|].
  cbn [foldl]. apply IH. by apply setitem_NoDup.
Qed.

(** The items of the tally of [kis], listed by [most_common]. *)
Lemma most_common_tallies_item (kis : list (string * Z)) (k : string) (v : Z) :
  (k, v) ∈ Ch07_r04.most_common (foldl tally [] kis)
  <-> k ∈ kis.*1 /\ v = total k kis.
Proof.
  rewrite most_common_perm.
  rewrite counter_item by (apply tallies_NoDup; constructor).
  rewrite tallies_keys, getitem_tallies. simpl.
  rewrite elem_of_first_seen, elem_of_nil. split.
  - intros [[? _] <-]. split; [done|lia].
  - intros [? ->]. split; [tauto|lia].
Qed.

Lemma most_common_tallies_order (kis : list (string * Z)) :
  let l := Ch07_r04.most_common (foldl tally [] kis) in
  StronglySorted by_count l /\
  NoDup l.*1 /\
  forall v, (filter (fun kv => kv.2 = v) l).*1
            = filter (fun k => total k kis = v) (first_seen [] kis.*1).
Proof.
  intros l. split; [apply most_common_sorted|]. split.
  { unfold l. rewrite most_common_perm. apply tallies_NoDup. constructor. }
  intros v. unfold l. rewrite most_common_stable.
  pose proof (tallies_keys [] kis) as Hkeys. simpl in Hkeys.
  rewrite <- Hkeys.
  assert (Hget : forall k, Ch07_r04.getitem (foldl tally [] kis) k = total k kis).
  { intros k. rewrite getitem_tallies. simpl. lia. }
  pose proof (tallies_NoDup [] kis (NoDup_nil_2)) as Hnd.
  revert Hget Hnd. generalize (foldl tally [] kis). intros c Hget Hnd.
  assert (Hval : forall k v', (k, v') ∈ c -> v' = total k kis).
  { intros k v' Hin. apply (counter_item c k v' Hnd) in Hin as [_ <-]. by rewrite Hget. }
  clear Hget Hnd. induction c as [|[k0 v0] c IH]; [done|].
  assert (v0 = total k0 kis) as Hv0 by (apply Hval; by left).
  specialize (IH (fun k v' Hin => Hval k v' (list_elem_of_further _ _ _ Hin))).
  rewrite fmap_cons. cbn [fst].
  rewrite (filter_cons (fun kv : string * Z => kv.2 = v) (k0, v0) c).
  rewrite (filter_cons (fun k => total k kis = v) k0). cbn [snd].
  destruct (decide (v0 = v)) as [Hv|Hv].
  - rewrite decide_True by congruence. rewrite fmap_cons. cbn [fst].
    f_equal. exact IH.
  - rewrite decide_False by congruence. exact IH.
Qed.

(** X1.  After any sequence of calls made since the module was imported,
    [counts()] lists the pair [(key, v)] exactly when [count] was called
    for [key], and then [v] is the sum of the increments given for that
    key: also when that sum is zero or negative, and whatever was counted
    through [EventCounter] objects in between. *)
Theorem counts_tally (cs : list Call) (key : string) (v : Z) :
  (key, v) ∈ Ch07_r04.counts (run_calls cs Ch07_r04.imported)
  <-> key ∈ (counted cs).*1 /\ v = total key (counted cs).
Proof.
  unfold Ch07_r04.counts.
  rewrite (proj1 (run_calls_counters cs Ch07_r04.imported)).
  apply most_common_tallies_item.
Qed.

(** X2.  All [EventCounter] objects share one tally: whichever object
    [self] is asked, [self.counts()] lists [(key, v)] exactly when the
    [count] method of some object was called for [key], [v] being the sum
    of the increments given for [key] through all objects together; calls
    of the module function [count] do not change it. *)
Theorem EventCounter_counts_shared (cs : list Call) (self : Ch07_r04.EventCounter)
    (key : string) (v : Z) :
  (key, v) ∈ Ch07_r04.EventCounter_counts self (run_calls cs Ch07_r04.imported)
  <-> key ∈ (event_counted cs).*1 /\ v = total key (event_counted cs).
Proof.
  unfold Ch07_r04.EventCounter_counts.
  rewrite (proj2 (run_calls_counters cs Ch07_r04.imported)).
  apply most_common_tallies_item.
Qed.

(** X3.  The order of [counts()] and of [self.counts()]: counts fall from
    the front to the back, every key is listed once, and the keys that
    share a count stand in the order in which they were first counted. *)
Theorem counts_order (cs : list Call) (self : Ch07_r04.EventCounter) :
  let g := run_calls cs Ch07_r04.imported in
  (StronglySorted by_count (Ch07_r04.counts g) /\
   NoDup (Ch07_r04.counts g).*1 /\
   forall v, (filter (fun kv => kv.2 = v) (Ch07_r04.counts g)).*1
             = filter (fun k => total k (counted cs) = v)
                      (first_seen [] (counted cs).*1)) /\
  (StronglySorted by_count (Ch07_r04.EventCounter_counts self g) /\
   NoDup (Ch07_r04.EventCounter_counts self g).*1 /\
   forall v, (filter (fun kv => kv.2 = v) (Ch07_r04.EventCounter_counts self g)).*1
             = filter (fun k => total k (event_counted cs) = v)
                      (first_seen [] (event_counted cs).*1)).
Proof.
  intros g. unfold Ch07_r04.counts, Ch07_r04.EventCounter_counts, g.
  destruct (run_calls_counters cs Ch07_r04.imported) as [-> ->].
  split; apply most_common_tallies_order.
Qed.

Example counts_order_run :
  Ch07_r04.counts
    (run_calls [CallCount "other" 1; CallCount "seven" 1; CallCount "other" 1;
                CallCount "late" 2; CallEventCount {| Ch07_r04.object_id := 0 |} "x" 9;
                CallCount "zero" 0]
               Ch07_r04.imported)
  = [("other", 2); ("late", 2); ("seven", 1); ("zero", 0)].
Proof. reflexivity. Qed.

(** * The path map of the client *)

Module J := Ch12_r07_client.

(** The members of the path items of a document, in document order: path,
    member name, member. *)
Definition members (pd : list (string * J.Json)) : list (string * string * J.Json) :=
  pi ← pd;
  match pi.2 with
  | J.JDict ops => (fun ov => (pi.1, ov.1, ov.2)) <$> ops
  | _ => []
  end.

(** What the comprehension takes from one member: the key under which the
    member is entered, none when it is passed over, or the exception. *)
Definition member_key (v : J.Json) : J.Result (option J.Json) :=
  match v with
  | J.JDict od =>
      match J.dict_get od "operationId" with
      | Some k => if J.hashable k then J.Ok (Some k) else J.Err J.TypeError
      | None => J.Ok None
      end
  | J.JList l =>
      if existsb (fun x => match x with J.JStr t => String.eqb t "operationId" | _ => false end) l
      then J.Err J.TypeError else J.Ok None
  | J.JStr t => if Py.contains "operationId" t then J.Err J.TypeError else J.Ok None
  | _ => J.Err J.TypeError
  end.

Definition add_member (m : J.Path_Map) (x : string * string * J.Json) : J.Result J.Path_Map :=
  match member_key x.2 with
  | J.Ok (Some k) => J.Ok (J.dict_set m k (J.JStr x.1.1, J.JStr x.1.2))
  | J.Ok None => J.Ok m
  | J.Err e => J.Err e
  end.

(** A document as [json.loads] makes it: no key twice in the paths, every
    path item an object, no member name twice in it. *)
Definition paths_of_objects (pd : list (string * J.Json)) : Prop :=
  NoDup pd.*1 /\
  Forall (fun pi => exists ops, pi.2 = J.JDict ops /\ NoDup ops.*1) pd.

Lemma dict_get_elem (d : list (string * J.Json)) (k : string) (v : J.Json) :
  NoDup d.*1 -> (k, v) ∈ d -> J.dict_get d k = Some v.
Proof.
  unfold J.dict_get. induction d as [|[k0 v0] d IH]; intros Hnd Hin.
  - by apply elem_of_nil in Hin.
  - rewrite fmap_cons in Hnd. apply NoDup_cons in Hnd as [Hk0 Hnd].
    cbn [List.find fst]. destruct (String.eqb_spec k0 k) as [->|Hne].
    + apply elem_of_cons in Hin as [[= ->]|Hin]; [done|].
      destruct Hk0. apply list_elem_of_fmap. by exists (k, v).
    + apply elem_of_cons in Hin as [[= -> _]|Hin]; [done|]. by apply IH.
Qed.

Lemma dict_get_key (d : list (string * J.Json)) (k : string) :
  bool_decide (k ∈ d.*1) = true <-> is_Some (J.dict_get d k).
Proof.
  rewrite bool_decide_eq_true. unfold J.dict_get.
  induction d as [|[k0 v0] d IH].
  - rewrite fmap_nil, elem_of_nil. split; [done|by intros [? ?]].
  - rewrite fmap_cons, elem_of_cons. cbn [List.find fst].
    destruct (String.eqb_spec k0 k) as [->|Hne].
    + split; [by eexists|by left].
    + rewrite IH. split; [by intros [->|?]|by right].
Qed.

Lemma fold_result_app {A B} (f : B -> A -> J.Result B) (acc : B) (l1 l2 : list A) :
  J.fold_result f acc (l1 ++ l2)
  = J.bind (J.fold_result f acc l1) (fun acc' => J.fold_result f acc' l2).
Proof.
  revert acc. induction l1 as [|x l1 IH]; intros acc; [done|].
  simpl. destruct (f acc x) as [acc'|e]; [|done]. apply IH.
Qed.

(** What the body of the comprehension does with one member. *)
Lemma member_step (m : J.Path_Map) (p o : string) (v : J.Json) :
  J.bind (J.contains_str "operationId" v) (fun has_id =>
    if has_id
    then J.bind (J.getitem v (J.JStr "operationId")) (fun key =>
         if J.hashable key
         then J.Ok (J.dict_set m key (J.JStr p, J.JStr o))
         else J.Err J.TypeError)
    else J.Ok m)
  = add_member m (p, o, v).
Proof.
  unfold add_member, member_key. destruct v as [| | |t|l|od]; try done.
  - cbn [J.contains_str J.bind snd]. by destruct (Py.contains _ _).
  - cbn [J.contains_str J.bind snd]. by destruct (existsb _ _).
  - cbn [J.contains_str J.bind J.getitem snd fst].
    pose proof (dict_get_key od "operationId") as Hkey.
    destruct (J.dict_get od "operationId") as [k|].
    + rewrite (proj2 Hkey) by done. cbn [J.bind]. by destruct (J.hashable k).
    + destruct (bool_decide _); [|done]. by destruct (proj1 Hkey eq_refl).
Qed.

Lemma item_loop (m : J.Path_Map) (p : string) (ops sub : list (string * J.Json)) :
  NoDup ops.*1 -> sub ⊆ ops ->
  J.fold_result
    (fun operation_ids operation =>
       J.bind (J.getitem (J.JDict ops) operation) (fun member =>
       J.bind (J.contains_str "operationId" member) (fun has_id =>
       if has_id
       then J.bind (J.getitem member (J.JStr "operationId")) (fun key =>
            if J.hashable key
            then J.Ok (J.dict_set operation_ids key (J.JStr p, operation))
            else J.Err J.TypeError)
       else J.Ok operation_ids)))
    m (J.JStr <$> sub.*1)
  = J.fold_result add_member m ((fun ov => (p, ov.1, ov.2)) <$> sub).
Proof.
  intros Hnd. revert m. induction sub as [|[o v] sub IH]; intros m Hsub; [done|].
  rewrite !fmap_cons. cbn [J.fold_result fst snd].
  cbn [J.getitem]. rewrite (dict_get_elem ops o v Hnd) by (apply Hsub; by left).
  cbn [J.bind]. rewrite member_step.
  destruct (add_member m (p, o, v)) as [m'|e]; [|done]. cbn [J.bind].
  apply IH. intros x Hx. apply Hsub. by right.
Qed.

Lemma paths_loop (m : J.Path_Map) (pd sub : list (string * J.Json)) :
  NoDup pd.*1 -> sub ⊆ pd ->
  Forall (fun pi => exists ops, pi.2 = J.JDict ops /\ NoDup ops.*1) sub ->
  J.fold_result
    (fun operation_ids path =>
       J.bind (J.getitem (J.JDict pd) path) (fun item =>
       J.bind (J.iter item) (fun item_iter =>
       J.fold_result
         (fun operation_ids operation =>
            J.bind (J.getitem item operation) (fun member =>
            J.bind (J.contains_str "operationId" member) (fun has_id =>
            if has_id
            then J.bind (J.getitem member (J.JStr "operationId")) (fun key =>
                 if J.hashable key
                 then J.Ok (J.dict_set operation_ids key (path, operation))
                 else J.Err J.TypeError)
            else J.Ok operation_ids)))
         operation_ids item_iter)))
    m (J.JStr <$> sub.*1)
  = J.fold_result add_member m (members sub).
Proof.
  intros Hnd. revert m.
  induction sub as [|[p item] sub IH]; intros m Hsub Hitems; [done|].
  apply Forall_cons in Hitems as [(ops & Hitem & Hops) Hitems].
  cbn [snd] in Hitem. subst item.
  rewrite !fmap_cons. cbn [J.fold_result fst].
  cbn [J.getitem]. rewrite (dict_get_elem pd p (J.JDict ops) Hnd) by (apply Hsub; by left).
  cbn [J.bind J.iter].
  rewrite (item_loop m p ops ops Hops) by done.
  unfold members. rewrite bind_cons. fold (members sub). cbn [fst snd].
  rewrite fold_result_app.
  destruct (J.fold_result add_member m _) as [m'|e]; [|done]. cbn [J.bind].
  apply IH; [|done]. intros x Hx. apply Hsub. by right.
Qed.

(** On a document of objects the comprehension is one pass over the
    members in document order. *)
Lemma make_path_map_members (spec pd : list (string * J.Json)) :
  J.dict_get spec "paths" = Some (J.JDict pd) ->
  paths_of_objects pd ->
  J.make_path_map spec = J.fold_result add_member [] (members pd).
Proof.
  intros Hpaths [Hnd Hitems]. unfold J.make_path_map.
  cbn [J.getitem]. rewrite Hpaths. cbn [J.bind J.iter].
  by apply paths_loop.
Qed.

(** A member of a path item that makes the comprehension fail: a null, a
    boolean or a number; a string with [operationId] in it; a list with
    the string [operationId] among its items; an object whose
    [operationId] is a list or an object. *)
Definition refused (v : J.Json) : Prop :=
  match v with
  | J.JNull | J.JBool _ | J.JInt _ => True
  | J.JStr t => Py.contains "operationId" t = true
  | J.JList l => J.JStr "operationId" ∈ l
  | J.JDict od =>
      exists k, J.dict_get od "operationId" = Some k /\ J.hashable k = false
  end.

Lemma member_key_refused (v : J.Json) :
  (refused v /\ member_key v = J.Err J.TypeError) \/
  (~ refused v /\ exists k, member_key v = J.Ok k).
Proof.
  destruct v as [| | |t|l|od]; simpl; try (by left).
  - destruct (Py.contains _ _); [by left|right]. split; [done|by eexists].
  - destruct (existsb _ l) eqn:Hex.
    + left. split; [|done]. apply existsb_exists in Hex as (x & Hin & Hx).
      destruct x as [| | |t| |]; try done. apply String.eqb_eq in Hx as ->.
      by apply list_elem_of_In.
    + right. split; [|by eexists]. intros Hin.
      apply not_true_iff_false in Hex. apply Hex, existsb_exists.
      exists (J.JStr "operationId"). split; [by apply list_elem_of_In|done].
  - destruct (J.dict_get od "operationId") as [k|].
    + destruct (J.hashable k) eqn:Hk.
      * right. split; [|by eexists]. intros (k' & [= <-] & Hk'). congruence.
      * left. split; [by exists k|done].
    + right. split; [|by eexists]. by intros (k' & [=] & _).
Qed.

Lemma fold_members_cases (m : J.Path_Map) (ms : list (string * string * J.Json)) :
  (Forall (fun x => ~ refused x.2) ms /\
   exists m', J.fold_result add_member m ms = J.Ok m') \/
  (Exists (fun x => refused x.2) ms /\
   J.fold_result add_member m ms = J.Err J.TypeError).
Proof.
  revert m. induction ms as [|x ms IH]; intros m.
  - left. split; [constructor|by eexists].
  - cbn [J.fold_result].
    destruct (member_key_refused x.2) as [[Hr Hk]|[Hr [k Hk]]].
    + assert (add_member m x = J.Err J.TypeError) as ->
        by (unfold add_member; by rewrite Hk).
      right. split; [by apply Exists_cons_hd|reflexivity].
    + assert (exists m1, add_member m x = J.Ok m1) as [m1 ->]
        by (unfold add_member; rewrite Hk; destruct k; by eexists).
      cbn [J.bind]. destruct (IH m1) as [[Hok Hm]|[Hbad Hm]].
      * left. split; [by constructor|exact Hm].
      * right. split; [by apply Exists_cons_tl|exact Hm].
Qed.

Lemma elem_of_members (pd : list (string * J.Json)) (p o : string) (v : J.Json) :
  (p, o, v) ∈ members pd
  <-> exists ops, (p, J.JDict ops) ∈ pd /\ (o, v) ∈ ops.
Proof.
  unfold members. rewrite list_elem_of_bind. split.
  - intros ([p' item] & Hin & Hpd). cbn [fst snd] in Hin.
    destruct item as [| | | | |ops]; try by apply elem_of_nil in Hin.
    apply list_elem_of_fmap in Hin as ([o' v'] & [= -> -> ->] & Hin).
    by exists ops.
  - intros (ops & Hpd & Hin). exists (p, J.JDict ops). split; [|done].
    cbn [fst snd]. apply list_elem_of_fmap. by exists (o, v).
Qed.

Lemma key_eq_str (k : J.Json) (j : string) :
  J.key_eq k (J.JStr j) = true <-> k = J.JStr j.
Proof.
  destruct k as [| | |t| |]; simpl; try (split; [done|by intros [=]]).
  rewrite String.eqb_eq. split; [by intros ->|by intros [= ->]].
Qed.

Lemma key_eq_str_l (k : J.Json) (j : string) :
  J.key_eq (J.JStr j) k = true <-> k = J.JStr j.
Proof.
  destruct k as [| | |t| |]; simpl; try (split; [done|by intros [=]]).
  rewrite String.eqb_eq. split; [by intros ->|by intros [= ->]].
Qed.

Lemma path_map_get_set (m : J.Path_Map) (k : J.Json) (v : J.Json * J.Json) (j : string) :
  J.path_map_get (J.dict_set m k v) (J.JStr j)
  = if J.key_eq k (J.JStr j) then Some v else J.path_map_get m (J.JStr j).
Proof.
  unfold J.path_map_get. induction m as [|[k0 v0] m IH]; cbn [J.dict_set].
  - cbn [List.find fst]. by destruct (J.key_eq k (J.JStr j)).
  - destruct (J.key_eq k0 k) eqn:Hk0; cbn [List.find fst].
    + destruct (J.key_eq k0 (J.JStr j)) eqn:Hj.
      * apply key_eq_str in Hj as ->. apply key_eq_str_l in Hk0 as ->.
        simpl. by rewrite String.eqb_refl.
      * destruct (J.key_eq k (J.JStr j)) eqn:Hkj; [|done].
        apply key_eq_str in Hkj as ->.
        assert (J.key_eq k0 (J.JStr j) = true) as Hc; [|congruence].
        clear -Hk0. by destruct k0 as [| | |t| |].
    + destruct (J.key_eq k0 (J.JStr j)) eqn:Hj; [|exact IH].
      apply key_eq_str in Hj as ->.
      destruct (J.key_eq k (J.JStr j)) eqn:Hkj; [|done].
      apply key_eq_str in Hkj as ->. simpl in Hk0.
      by rewrite String.eqb_refl in Hk0.
Qed.

(** The operation id of a member, when it is a string. *)
Definition has_id (i : string) (v : J.Json) : Prop :=
  exists od, v = J.JDict od /\ J.dict_get od "operationId" = Some (J.JStr i).

Lemma member_key_id (v : J.Json) (i : string) :
  member_key v = J.Ok (Some (J.JStr i)) <-> has_id i v.
Proof.
  unfold has_id. split.
  - destruct v as [| | |t|l|od]; simpl; try done.
    + by destruct (Py.contains _ _).
    + by destruct (existsb _ _).
    + destruct (J.dict_get od "operationId") as [k|] eqn:Hk; [|done].
      destruct (J.hashable k); [|done]. intros [= ->]. by exists od.
  - intros (od & -> & Hid). simpl. by rewrite Hid.
Qed.

Lemma add_member_get (m m' : J.Path_Map) (x : string * string * J.Json) (i : string) :
  add_member m x = J.Ok m' ->
  (has_id i x.2 /\ J.path_map_get m' (J.JStr i) = Some (J.JStr x.1.1, J.JStr x.1.2)) \/
  (~ has_id i x.2 /\ J.path_map_get m' (J.JStr i) = J.path_map_get m (J.JStr i)).
Proof.
  unfold add_member. rewrite <- member_key_id.
  destruct (member_key x.2) as [[k|]|e]; [| |done].
  - intros [= <-]. rewrite path_map_get_set.
    destruct (J.key_eq k (J.JStr i)) eqn:Hk.
    + apply key_eq_str in Hk as ->. by left.
    + right. split; [|done]. intros [= ->]. simpl in Hk.
      by rewrite String.eqb_refl in Hk.
  - intros [= <-]. by right.
Qed.

Lemma fold_members_miss (m m' : J.Path_Map) (ms : list (string * string * J.Json))
    (i : string) :
  J.fold_result add_member m ms = J.Ok m' ->
  Forall (fun x => ~ has_id i x.2) ms ->
  J.path_map_get m' (J.JStr i) = J.path_map_get m (J.JStr i).
Proof.
  revert m. induction ms as [|x ms IH]; intros m; [by intros [= <-]|].
  cbn [J.fold_result]. destruct (add_member m x) as [m1|e] eqn:Hadd; [|done].
  cbn [J.bind]. intros Hrest Hmiss. apply Forall_cons in Hmiss as [Hx Hmiss].
  rewrite (IH m1 Hrest Hmiss).
  by destruct (add_member_get m m1 x i Hadd) as [[? _]|[_ ->]].
Qed.

Lemma fold_members_origin (m m' : J.Path_Map) (ms : list (string * string * J.Json))
    (i : string) (ab : J.Json * J.Json) :
  J.fold_result add_member m ms = J.Ok m' ->
  J.path_map_get m' (J.JStr i) = Some ab ->
  J.path_map_get m (J.JStr i) = Some ab \/
  exists x, x ∈ ms /\ has_id i x.2 /\ ab = (J.JStr x.1.1, J.JStr x.1.2).
Proof.
  revert m. induction ms as [|x ms IH]; intros m; [intros [= <-]; by left|].
  cbn [J.fold_result]. destruct (add_member m x) as [m1|e] eqn:Hadd; [|done].
  cbn [J.bind]. intros Hrest Hget.
  destruct (IH m1 Hrest Hget) as [Hm1|(y & Hy & Hid & Hab)].
  - destruct (add_member_get m m1 x i Hadd) as [[Hid Hx]|[_ Hx]].
    + right. exists x. split; [by left|]. split; [done|]. congruence.
    + left. congruence.
  - right. exists y. split; [by right|done].
Qed.

Lemma has_id_dec (i : string) (v : J.Json) : has_id i v \/ ~ has_id i v.
Proof.
  unfold has_id. destruct v as [| | |t|l|od];
    try (right; by intros (od' & [=] & _)).
  destruct (J.dict_get od "operationId") as [k|] eqn:Hk.
  - destruct k as [| | |t| |];
      try (right; intros (od' & [= <-] & Hid); congruence).
    destruct (decide (t = i)) as [->|Hne].
    + left. by exists od.
    + right. intros (od' & [= <-] & Hid). congruence.
  - right. intros (od' & [= <-] & Hid). congruence.
Qed.

Lemma Exists_or_not {A} (P : A -> Prop) (l : list A) :
  (forall x, P x \/ ~ P x) -> Exists P l \/ ~ Exists P l.
Proof.
  intros Hdec. induction l as [|y l [IH|IH]].
  - right. by intros ?%Exists_nil.
  - left. by right.
  - destruct (Hdec y) as [Hy|Hy]; [left; by left|].
    right. by intros [?|?]%Exists_cons.
Qed.

(** The last item of a list that has a property some item has. *)
Lemma last_such {A} (P : A -> Prop) (l : list A) :
  (forall x, P x \/ ~ P x) -> Exists P l ->
  exists before x after,
    l = before ++ x :: after /\ P x /\ Forall (fun y => ~ P y) after.
Proof.
  intros Hdec. induction l as [|y l IH]; intros Hex.
  - by apply Exists_nil in Hex.
  - destruct (Exists_or_not P l Hdec) as [Hl|Hl].
    + destruct (IH Hl) as (before & x & after & -> & Hx & Hafter).
      by exists (y :: before), x, after.
    + apply Exists_cons in Hex as [Hy|Hl']; [|done].
      exists [], y, l. split; [done|]. split; [done|].
      apply Forall_forall. intros z Hz Hpz. apply Hl.
      apply Exists_exists. by exists z.
Qed.

(** X9.  What [make_path_map] returns for a document whose paths are
    objects of members, as [json.loads] makes them.  Under an operation
    id the map holds the path and the name of the last member of the
    document that carries that id: so it holds the one member that
    carries it when the id is not used twice.  And whatever the map holds
    under an id is the path and the name of some member carrying that
    id; members without an [operationId] leave no entry. *)
Theorem make_path_map_lookup (spec pd : list (string * J.Json)) (m : J.Path_Map) :
  J.dict_get spec "paths" = Some (J.JDict pd) ->
  paths_of_objects pd ->
  J.make_path_map spec = J.Ok m ->
  (forall before p o v after i,
     members pd = before ++ (p, o, v) :: after ->
     has_id i v ->
     Forall (fun x => ~ has_id i x.2) after ->
     J.path_map_get m (J.JStr i) = Some (J.JStr p, J.JStr o)) /\
  (forall p ops o v i,
     (p, J.JDict ops) ∈ pd -> (o, v) ∈ ops -> has_id i v ->
     (forall p' ops' o' v',
        (p', J.JDict ops') ∈ pd -> (o', v') ∈ ops' -> has_id i v' ->
        p' = p /\ o' = o) ->
     J.path_map_get m (J.JStr i) = Some (J.JStr p, J.JStr o)) /\
  (forall i a b,
     J.path_map_get m (J.JStr i) = Some (a, b) ->
     exists p ops o v,
       (p, J.JDict ops) ∈ pd /\ (o, v) ∈ ops /\ has_id i v /\
       a = J.JStr p /\ b = J.JStr o).
Proof.
  intros Hpaths Hshape. rewrite (make_path_map_members spec pd Hpaths Hshape).
  intros Hfold.
  assert (Hlast : forall before p o v after i,
            members pd = before ++ (p, o, v) :: after ->
            has_id i v ->
            Forall (fun x => ~ has_id i x.2) after ->
            J.path_map_get m (J.JStr i) = Some (J.JStr p, J.JStr o)).
  { intros before p o v after i Hsplit Hid Hafter.
    rewrite Hsplit, fold_result_app in Hfold.
    destruct (J.fold_result add_member [] before) as [m1|e]; [|done].
    cbn [J.bind J.fold_result] in Hfold.
    destruct (add_member m1 (p, o, v)) as [m2|e] eqn:Hadd; [|done].
    cbn [J.bind] in Hfold.
    rewrite (fold_members_miss m2 m after i Hfold Hafter).
    by destruct (add_member_get m1 m2 (p, o, v) i Hadd) as [[_ ->]|[Hno _]]. }
  split; [exact Hlast|]. split.
  - intros p ops o v i Hp Ho Hid Huniq.
    assert (Exists (fun x => has_id i x.2) (members pd)) as Hex.
    { apply Exists_exists. exists (p, o, v). split; [|done].
      apply elem_of_members. by exists ops. }
    destruct (last_such _ _ (fun x => has_id_dec i x.2) Hex)
      as (before & [[p' o'] v'] & after & Hsplit & Hid' & Hafter).
    cbn [snd] in Hid'.
    assert ((p', o', v') ∈ members pd) as Hin'.
    { rewrite Hsplit. apply elem_of_app. right. by left. }
    apply elem_of_members in Hin' as (ops' & Hp' & Ho').
    destruct (Huniq p' ops' o' v' Hp' Ho' Hid') as [<- <-].
    by apply (Hlast before p' o' v' after i).
  - intros i a b Hget.
    destruct (fold_members_origin [] m (members pd) i (a, b) Hfold Hget)
      as [Hnil|([[p o] v] & Hin & Hid & [= -> ->])]; [done|].
    apply elem_of_members in Hin as (ops & Hp & Ho).
    by exists p, ops, o, v.
Qed.

(** X10.  When [make_path_map] fails.  Without a [paths] key it raises
    [KeyError]; with [paths] null, a boolean or a number it raises
    [TypeError].  On a document whose paths are objects of members it
    returns a map exactly when no member is refused, and raises
    [TypeError] otherwise: a member that is a string with the text
    [operationId] in it, such as a summary, is enough. *)
Theorem make_path_map_errors (spec : list (string * J.Json)) :
  (J.dict_get spec "paths" = None -> J.make_path_map spec = J.Err J.KeyError) /\
  (forall v, J.dict_get spec "paths" = Some v ->
     v = J.JNull \/ (exists b, v = J.JBool b) \/ (exists n, v = J.JInt n) ->
     J.make_path_map spec = J.Err J.TypeError) /\
  (forall pd, J.dict_get spec "paths" = Some (J.JDict pd) -> paths_of_objects pd ->
     ((forall p ops o v, (p, J.JDict ops) ∈ pd -> (o, v) ∈ ops -> ~ refused v) ->
      exists m, J.make_path_map spec = J.Ok m) /\
     ((exists p ops o v, (p, J.JDict ops) ∈ pd /\ (o, v) ∈ ops /\ refused v) ->
      J.make_path_map spec = J.Err J.TypeError)).
Proof.
  split; [|split].
  - intros Hnone. unfold J.make_path_map. cbn [J.getitem]. by rewrite Hnone.
  - intros v Hv Hcases. unfold J.make_path_map. cbn [J.getitem]. rewrite Hv.
    by destruct Hcases as [->|[[b ->]|[n ->]]].
  - intros pd Hpaths Hshape.
    rewrite (make_path_map_members spec pd Hpaths Hshape).
    destruct (fold_members_cases [] (members pd)) as [[Hok Hm]|[Hbad Hm]].
    + split; [done|]. intros (p & ops & o & v & Hp & Ho & Hr).
      rewrite Forall_forall in Hok. destruct (Hok (p, o, v)); [|done].
      apply elem_of_members. by exists ops.
    + split; [|done]. intros Hnone.
      apply Exists_exists in Hbad as ([[p o] v] & Hin & Hr).
      apply elem_of_members in Hin as (ops & Hp & Ho).
      by destruct (Hnone p ops o v Hp Ho).
Qed.

(** * The added theorems at sample inputs *)

(** The routing of recipe 3 at sample paths. *)
Example status_codes_run :
  let request p := {| PATH_INFO := p; headers := [("Accept", "application/json")];
                      args := [] |} in
  (fun p => status (fst (Ch12_r03.wsgi_app (request p) (start None 0))))
    <$> ["/dealer//hand"; "/dealer///hand"; "//dealer/hand"; "/dealer/hand/";
         "/static/x"; "/static//x"; "/dealer//openapi.json"; "/"; ""]
  = [308; 404; 200; 404; 404; 308; 308; 404; 404].
Proof. reflexivity. Qed.

Lemma refused_request_no_effect_witness :
  snd (Ch12_r03.wsgi_app (Run.request "/dealer/nowhere" [("cards", "5")])
                         Run.after_one_hand)
  = Run.after_one_hand.
Proof.
  apply (proj1 (refused_request_no_effect
                  (Run.request "/dealer/nowhere" [("cards", "5")])
                  Run.after_one_hand (or_intror eq_refl))).
Defined.

Lemma one_size_hand_and_hands_witness :
  snd (Ch12_r03.deal (Run.request "/dealer/hand" [("cards", "3")]) Run.after_one_hand)
  = snd (Ch12_r03.multi_hand (Run.request "/dealer/hands" [("cards", "3")])
                             Run.after_one_hand).
Proof.
  apply (proj1 (one_size_hand_and_hands
                  (Run.request "/dealer/hand" [("cards", "3")])
                  (Run.request "/dealer/hands" [("cards", "3")])
                  "3" 3 Run.after_one_hand eq_refl eq_refl eq_refl)).
Defined.

Lemma hands_as_single_requests_witness :
  exists hs,
    fst (Ch12_r03.multi_hand
           (Run.request "/dealer/hands" [("cards", "2"); ("cards", "1")])
           Run.after_one_hand)
    = Ret (jsonify (JsonHands hs)) /\
    for_each Ch12_r03.deal
      [Run.request "/dealer/hand" [("cards", "2")];
       Run.request "/dealer/hand" [("cards", "1")]]
      Run.after_one_hand
    = (Ret ((fun h => jsonify (JsonCards h.2)) <$> hs),
       snd (Ch12_r03.multi_hand
              (Run.request "/dealer/hands" [("cards", "2"); ("cards", "1")])
              Run.after_one_hand)).
Proof.
  destruct (Ch12_r03.multi_hand
              (Run.request "/dealer/hands" [("cards", "2"); ("cards", "1")])
              Run.after_one_hand) as [res st'] eqn:E.
  destruct res as [response|e]; [|by vm_compute in E].
  destruct (hands_as_single_requests
              (Run.request "/dealer/hands" [("cards", "2"); ("cards", "1")])
              [Run.request "/dealer/hand" [("cards", "2")];
               Run.request "/dealer/hand" [("cards", "1")]]
              ["2"; "1"] response Run.after_one_hand st')
    as (hs & -> & Hrun).
  - reflexivity.
  - repeat constructor; by eexists.
  - discriminate.
  - exact E.
  - exists hs. split; [reflexivity|exact Hrun].
Defined.

Lemma multi_hand_count_witness :
  exists hs,
    fst (Ch12_r03.multi_hand (Run.request "/dealer/hands" []) (start None 3))
    = Ret (jsonify (JsonHands hs)) /\
    (1 <= length hs <= 52)%nat.
Proof.
  destruct (Ch12_r03.multi_hand (Run.request "/dealer/hands" []) (start None 3))
    as [res st'] eqn:E.
  destruct res as [response|e]; [|by vm_compute in E].
  destruct (multi_hand_count (Run.request "/dealer/hands" []) response
              (start None 3) st' E) as (hs & -> & _ & Hlen & _).
  exists hs. split; [reflexivity|exact Hlen].
Defined.

(** The paths of a small specification of three operations. *)
Definition sample_paths : list (string * J.Json) :=
  [("/players", J.JDict
      [("get", J.JDict [("operationId", J.JStr "get_all_players")]);
       ("post", J.JDict [("operationId", J.JStr "make_player")])]);
   ("/players/{id}", J.JDict
      [("get", J.JDict [("operationId", J.JStr "get_one_player")]);
       ("parameters", J.JList [])])].

Definition sample_spec : list (string * J.Json) :=
  [("openapi", J.JStr "3.0.1"); ("paths", J.JDict sample_paths)].

Lemma make_path_map_lookup_witness :
  exists m,
    J.make_path_map sample_spec = J.Ok m /\
    J.path_map_get m (J.JStr "make_player")
    = Some (J.JStr "/players", J.JStr "post").
Proof.
  assert (Hshape : paths_of_objects sample_paths).
  { split.
    - apply (bool_decide_unpack _). by vm_compute.
    - repeat constructor; eexists; (split; [reflexivity|]);
        apply (bool_decide_unpack _); by vm_compute. }
  destruct (J.make_path_map sample_spec) as [m|e] eqn:E; [|by vm_compute in E].
  exists m. split; [reflexivity|].
  apply (proj1 (make_path_map_lookup sample_spec sample_paths m eq_refl Hshape E)
           [("/players", "get",
             J.JDict [("operationId", J.JStr "get_all_players")])]
           "/players" "post"
           (J.JDict [("operationId", J.JStr "make_player")])
           [("/players/{id}", "get",
             J.JDict [("operationId", J.JStr "get_one_player")]);
            ("/players/{id}", "parameters", J.JList [])]
           "make_player").
  - reflexivity.
  - by eexists.
  - apply Forall_cons. split; [|apply Forall_cons; split; [|apply Forall_nil_2]].
    + intros (od & Heq & Hid). injection Heq as <-. by vm_compute in Hid.
    + intros (od & Heq & Hid). discriminate Heq.
Defined.
